(** * rpy2 build script ([setup.py]): a shallow embedding and its properties

    The script detects the local R installation, probes the C toolchain by
    compiling and linking a tiny program against R's headers, and selects
    the cffi builders from the outcome.  Python values are embedded as
    follows: [str] as [string], tuples and lists of integers as [list Z],
    enumerations as inductive types, and every call that leaves the
    interpreter (subprocess, compiler, file system, the [rpy2.situation]
    helpers) as a field of a [world] record that answers with a value or
    with the class of the exception it raises.  Effects (the temporary
    directory tree, printed lines, warnings, [sys.exit]) are threaded
    through a state-and-error monad. *)

From Stdlib Require Import ZArith String Ascii List Bool Lia.
From Stdlib Require Import DecimalString DecimalZ DecimalPos.
From stdpp Require Import gmap strings list fin_maps.

Local Open Scope string_scope.
Local Open Scope Z_scope.
Local Open Scope list_scope.

(** ** Python strings *)

Module PyStr.

Definition LF : string := String (ascii_of_nat 10) EmptyString.

(** [str.startswith]. *)
Definition startswith (s p : string) : bool := String.prefix p s.

(** [str.isspace] on a single character, for code points below 256:
    TAB, LF, VT, FF, CR, FS, GS, RS, US, SPACE, NEL and NBSP. *)
Definition isspace (a : ascii) : bool :=
  let n := nat_of_ascii a in
  ((9 <=? n) && (n <=? 13) || (28 <=? n) && (n <=? 32)
   || (n =? 133) || (n =? 160))%nat.

(** [str.rstrip()] without argument: drops the trailing run of
    whitespace. *)
Fixpoint rstrip (s : string) : string :=
  match s with
  | EmptyString => EmptyString
  | String a s' =>
      match rstrip s' with
      | EmptyString => if isspace a then EmptyString else String a EmptyString
      | r => String a r
      end
  end.

(** [str.split(sep)] for a non-empty separator: the pieces between the
    non-overlapping occurrences of [sep], scanned from the left.  [skip]
    counts the characters of a separator still to be passed over and
    [cur] is the piece being read. *)
Fixpoint split_go (sep : string) (skip : nat) (cur s : string) : list string :=
  match s with
  | EmptyString => [cur]
  | String a s' =>
      match skip with
      | S k => split_go sep k cur s'
      | O =>
          if String.prefix sep s
          then cur :: split_go sep (String.length sep - 1) EmptyString s'
          else split_go sep 0 (cur +:+ String a EmptyString) s'
      end
  end.

Definition split (sep s : string) : list string := split_go sep 0 EmptyString s.

(** [str.endswith]. *)
Fixpoint endswith (s p : string) : bool :=
  if String.eqb s p then true
  else match s with
       | EmptyString => false
       | String _ s' => endswith s' p
       end.

End PyStr.

(** ** Exceptions

    The classes the script can meet, with the parent of each as in
    CPython's [builtins] and [distutils.errors].  An [except C] clause
    catches an exception whose class is [C] or derives from it. *)

Inductive exn_class : Type :=
| BaseException | PyException | SystemExit | KeyboardInterrupt
| OSError | FileExistsError | FileNotFoundError | IndexError | TypeError
| ValueError
| DistutilsError | DistutilsExecError | DistutilsPlatformError
| DistutilsFileError
| CCompilerError | PreprocessError | CompileError | LibError | LinkError
| UnknownFileError.

Definition exn_base (c : exn_class) : option exn_class :=
  match c with
  | BaseException => None
  | PyException | SystemExit | KeyboardInterrupt => Some BaseException
  | OSError | IndexError | TypeError | ValueError => Some PyException
  | FileExistsError | FileNotFoundError => Some OSError
  | DistutilsError | CCompilerError => Some PyException
  | DistutilsExecError | DistutilsPlatformError
  | DistutilsFileError => Some DistutilsError
  | PreprocessError | CompileError | LibError | LinkError
  | UnknownFileError => Some CCompilerError
  end.

Global Instance exn_class_eq_dec : EqDecision exn_class.
Proof. solve_decision. Defined.

Fixpoint issubclass_fuel (n : nat) (c d : exn_class) : bool :=
  if bool_decide (c = d) then true
  else match n with
       | O => false
       | S n' => match exn_base c with
                 | Some b => issubclass_fuel n' b d
                 | None => false
                 end
       end.

(** The hierarchy above has depth four. *)
Definition issubclass (c d : exn_class) : bool := issubclass_fuel 4 c d.

(** What a call into the outside world answers. *)
Inductive reply (A : Type) : Type :=
| Returns (a : A)
| Raises (e : exn_class).
Arguments Returns {A} a.
Arguments Raises {A} e.

(** ** [cmp_version] *)

(** The value is [Some n] for [return n] and [None] when control falls
    off the end of the function; indexing an empty tuple raises. *)
Fixpoint cmp_version (x y : list Z) {struct x} : reply (option Z) :=
  match x, y with
  | x0 :: x_tail, y0 :: y_tail =>
      if x0 <? y0 then Returns (Some (-1))
      else if x0 >? y0 then Returns (Some 1)
      else if x0 =? y0 then
        if (length x =? 1)%nat || (length y =? 1)%nat then Returns (Some 0)
        else cmp_version x_tail y_tail
      else Returns None
  | _, _ => Raises IndexError
  end.


(** ** The interpreter state and the effect monad *)

Inductive event : Type :=
| EvWarn (msg : string)     (* warnings.warn *)
| EvPrint (msg : string)    (* print *)
| EvCall (fn : string).     (* a function is entered *)

Global Instance event_eq_dec : EqDecision event.
Proof. solve_decision. Defined.

(** [st_fs] is the set of paths that exist, [st_rng] the names the random
    generator of [tempfile] will propose, in order, and
    [st_default_libraries] the list object built once from the default
    [libraries=['R']] of [get_c_extension_status] and shared by its calls. *)
Record pstate : Type := PState {
  st_fs : gset string;
  st_rng : list string;
  st_default_libraries : list string;
  st_log : list event
}.

(** A computation returns, raises, or leaves through [sys.exit]. *)
Inductive result (A : Type) : Type :=
| Ret (a : A)
| Raise (e : exn_class)
| Exit (code : Z).
Arguments Ret {A} a.
Arguments Raise {A} e.
Arguments Exit {A} code.

Definition M (A : Type) : Type := pstate → result A * pstate.

Global Instance M_ret : MRet M := λ A a σ, (Ret a, σ).

Global Instance M_bind : MBind M := λ A B f m σ,
  match m σ with
  | (Ret a, σ') => f a σ'
  | (Raise e, σ') => (Raise e, σ')
  | (Exit c, σ') => (Exit c, σ')
  end.

Definition raise {A} (e : exn_class) : M A := λ σ, (Raise e, σ).
Definition sys_exit {A} (code : Z) : M A := λ σ, (Exit code, σ).

Definition add_log (ev : event) (σ : pstate) : pstate :=
  PState (st_fs σ) (st_rng σ) (st_default_libraries σ) (st_log σ ++ [ev]).

Definition upd_fs (f : gset string → gset string) (σ : pstate) : pstate :=
  PState (f (st_fs σ)) (st_rng σ) (st_default_libraries σ) (st_log σ).

Definition emit (ev : event) : M unit := λ σ, (Ret (), add_log ev σ).

Definition warnings_warn (msg : string) : M unit := emit (EvWarn msg).
Definition print (msg : string) : M unit := emit (EvPrint msg).

(** A call that leaves the script: recorded, then answered by the world. *)
Definition ext {A} (fn : string) (r : reply A) : M A :=
  emit (EvCall fn) ;;
  match r with
  | Returns a => mret a
  | Raises e => raise e
  end.

Definition ext_unit (fn : string) (r : option exn_class) : M unit :=
  emit (EvCall fn) ;;
  match r with
  | None => mret ()
  | Some e => raise e
  end.

(** [try: body / except C1: h1 / ... / else: orelse]: the first clause whose
    class the exception derives from handles it; others propagate. *)
Fixpoint find_handler {B} (e : exn_class) (hs : list (exn_class * M B)) : option (M B) :=
  match hs with
  | [] => None
  | (c, h) :: hs' => if issubclass e c then Some h else find_handler e hs'
  end.

Definition try_except {A B} (body : M A) (handlers : list (exn_class * M B))
    (orelse : A → M B) : M B := λ σ,
  match body σ with
  | (Ret a, σ') => orelse a σ'
  | (Raise e, σ') =>
      match find_handler e handlers with
      | Some h => h σ'
      | None => (Raise e, σ')
      end
  | (Exit c, σ') => (Exit c, σ')
  end.

(** [try: body / except: handler]: a bare clause catches everything,
    [SystemExit] included. *)
Definition try_bare {A} (body : M A) (handler : M A) : M A := λ σ,
  match body σ with
  | (Ret a, σ') => (Ret a, σ')
  | (Raise _, σ') | (Exit _, σ') => handler σ'
  end.

(** [l[i]] *)
Definition py_index {A} (l : list A) (i : nat) : M A :=
  match l !! i with
  | Some a => mret a
  | None => raise IndexError
  end.

Definition is_not_None {A} (o : option A) : bool :=
  match o with Some _ => true | None => false end.

(** ** The host

    A POSIX host: [os.linesep] is a line feed and [os.path.join] is
    [posixpath.join]. *)

Definition os_linesep : string := PyStr.LF.

Definition path_join (a b : string) : string :=
  if PyStr.startswith b "/" then b
  else if String.eqb a "" || PyStr.endswith a "/" then a +:+ b
  else a +:+ "/" +:+ b.

(** [p] is [d] or lies below it. *)
Definition under (d p : string) : bool :=
  String.eqb p d || PyStr.startswith p (path_join d "").

(** ** What [rpy2.situation] provides *)

Inductive CFFI_MODE : Type :=
| ABI | API | BOTH
| OtherMode (name : string).

(** Modelled from the spec: [situation.CExtensionOptions] is not part of
    the build script; the specification describes it as a transient value
    bundling the library names to link, the include directories and the
    library directories. *)
Record CExtensionOptions : Type := CExtOpts {
  libraries : list string;
  include_dirs : list string;
  library_dirs : list string
}.

Definition CExtensionOptions_new : CExtensionOptions := CExtOpts [] [] [].

(** ** The world *)

Record world : Type := World {
  sys_version_info : Z * Z;
  os_environ : gmap string string;
  subprocess_check_output : list string → reply string;
  os_path_exists : string → bool;
  tempfile_gettempdir : string;
  (* [fh.write(text)] on the file that [open(path, 'w')] has created:
     the exception raised, if any *)
  fs_open_write : string → string → option exn_class;
  distutils_new_compiler : option exn_class;
  distutils_customize_compiler : option exn_class;
  (* [compile(sources, output_dir, include_dirs)]: the object files
     written, named relative to [output_dir] *)
  cc_compile : list string → string → option (list string) → reply (list string);
  (* [link_executable(objects, output_progname, libraries, library_dirs)] *)
  cc_link_executable :
    list string → string → list string → option (list string) → reply unit;
  situation_get_r_home : reply (option string);
  situation_get_r_flags : option string → string → reply (list string);
  situation_add_lib : CExtensionOptions → list string → reply CExtensionOptions;
  situation_add_include : CExtensionOptions → list string → reply CExtensionOptions;
  situation_get_cffi_mode : reply CFFI_MODE
}.

(** ** The file system calls *)

Definition set_fs (f : gset string → gset string) : M unit := λ σ,
  (Ret (), upd_fs f σ).

(** The first proposed name whose path does not exist yet, and the names
    left after it. *)
Fixpoint pick_fresh (fs : gset string) (dir pre : string) (names : list string)
    : option (string * list string) :=
  match names with
  | [] => None
  | n :: rest =>
      let p := path_join dir (pre +:+ n) in
      if bool_decide (p ∈ fs) then pick_fresh fs dir pre rest else Some (p, rest)
  end.

(** [tempfile.mkdtemp(prefix=pre)]: creates a directory that did not
    exist; [FileExistsError] when every proposed name is taken. *)
Definition mkdir_fresh (w : world) (pre : string) : M string := λ σ,
  match pick_fresh (st_fs σ) (tempfile_gettempdir w) pre (st_rng σ) with
  | Some (p, rest) =>
      (Ret p, PState ({[p]} ∪ st_fs σ) rest (st_default_libraries σ) (st_log σ))
  | None =>
      (Raise FileExistsError,
       PState (st_fs σ) [] (st_default_libraries σ) (st_log σ))
  end.

Definition tempfile_mkdtemp (w : world) (pre : string) : M string :=
  emit (EvCall "tempfile.mkdtemp") ;;
  mkdir_fresh w pre.

(** [with open(path, 'w') as fh: fh.write(text)]: opening creates the
    file, and the world tells whether the write then raises. *)
Definition open_write (w : world) (path text : string) : M unit :=
  emit (EvCall "open") ;;
  set_fs (λ fs, {[path]} ∪ fs) ;;
  match fs_open_write w path text with
  | None => mret ()
  | Some e => raise e
  end.

(** [shutil.rmtree(d)]: [d] and everything below it is removed; a missing
    [d] is an error. *)
Definition remove_tree (d : string) : M unit := λ σ,
  if bool_decide (d ∈ st_fs σ)
  then set_fs (filter (λ p, under d p = false)) σ
  else (Raise FileNotFoundError, σ).

Definition shutil_rmtree (d : string) : M unit :=
  emit (EvCall "shutil.rmtree") ;;
  remove_tree d.

(** ** The toolchain calls *)

(** [new_compiler()] followed by [customize_compiler(compiler)]. *)
Definition new_customized_compiler (w : world) : M unit :=
  ext_unit "new_compiler" (distutils_new_compiler w) ;;
  ext_unit "customize_compiler" (distutils_customize_compiler w).

Definition compiler_compile (w : world) (sources : list string) (output_dir : string)
    (include_dirs : option (list string)) : M (list string) :=
  objs ← ext "compiler.compile" (cc_compile w sources output_dir include_dirs);
  let objects := path_join output_dir <$> objs in
  set_fs (λ fs, list_to_set objects ∪ fs) ;;
  mret objects.

Definition compiler_link_executable (w : world) (objects : list string)
    (output_progname : string) (libraries : list string)
    (library_dirs : option (list string)) : M unit :=
  ext "compiler.link_executable"
      (cc_link_executable w objects output_progname libraries library_dirs) ;;
  set_fs (λ fs, {[output_progname]} ∪ fs).

(** ** [_get_r_home] *)

Definition R_ENVIRON_warning : string :=
  "The environment variable R_ENVIRON or R_ENVIRON_USER is set."
  +:+ " Differences between their settings during build time and run"
  +:+ " time may lead to issues when using rpy2.".

Definition Renviron_site_warning (path : string) : string :=
  "The optional file '" +:+ path +:+ "' is defined. Modifying it between "
  +:+ "build time and run time may lead to issues when using rpy2.".

Definition _get_r_home (w : world) (r_bin : string) : M string :=
  (if is_not_None (os_environ w !! "R_ENVIRON")
      || is_not_None (os_environ w !! "R_ENVIRON_USER")
   then warnings_warn R_ENVIRON_warning
   else mret ()) ;;
  r_home ← try_bare
    (ext "subprocess.check_output" (subprocess_check_output w [r_bin; "RHOME"]))
    (let msg := "Error: Tried to guess R's HOME but no command '" +:+ r_bin
                +:+ "' in the PATH." in
     print msg ;;
     sys_exit 1);
  let r_home := PyStr.split os_linesep r_home in
  first ← py_index r_home 0;
  r_home ← (if PyStr.startswith first "WARNING"
            then warnings_warn ("R emitting a warning: " +:+ first) ;;
                 second ← py_index r_home 1;
                 mret (PyStr.rstrip second)
            else mret (PyStr.rstrip first));
  (if os_path_exists w (path_join r_home "Renviron.site")
   then warnings_warn (Renviron_site_warning (path_join r_home "Renviron.site"))
   else mret ()) ;;
  mret r_home.

(** ** [COMPILATION_STATUS] and the probe *)

Inductive COMPILATION_STATUS : Type :=
| COMPILE_ERROR | NO_COMPILER | PLATFORM_ERROR | OK.

Global Instance COMPILATION_STATUS_eq_dec : EqDecision COMPILATION_STATUS.
Proof. solve_decision. Defined.

(** The [.value] of a member. *)
Definition status_value (s : COMPILATION_STATUS) : option string :=
  match s with
  | COMPILE_ERROR =>
      Some ("unable to compile R C extensions - missing headers "
            +:+ "or R not compiled as a library ?")
  | NO_COMPILER =>
      Some ("unable to compile sqlite3 C extensions - " +:+ "no c compiler?")
  | PLATFORM_ERROR => Some "unable to compile R C extensions - platform error"
  | OK => None
  end.

Definition c_code : string :=
  "#include <Rinterface.h>" +:+ PyStr.LF +:+ PyStr.LF
  +:+ "int main(int argc, char **argv) { return 0; }".

(** The three [except] clauses, in the order of the source. *)
Definition probe_handlers : list (exn_class * M COMPILATION_STATUS) :=
  [ (CCompilerError, mret COMPILE_ERROR);
    (DistutilsExecError, mret NO_COMPILER);
    (DistutilsPlatformError, mret PLATFORM_ERROR) ].

(** An omitted [libraries] argument is [None] here and stands for the
    shared default list. *)
Definition libraries_or_default (libs : option (list string)) : M (list string) :=
  λ σ, (Ret (default (st_default_libraries σ) libs), σ).

Definition get_c_extension_status (w : world) (libraries : option (list string))
    (include_dirs library_dirs : option (list string)) : M COMPILATION_STATUS :=
  emit (EvCall "get_c_extension_status") ;;
  libraries ← libraries_or_default libraries;
  tmp_dir ← tempfile_mkdtemp w "tmp_pw_r_";
  let bin_file := path_join tmp_dir "test_pw_r" in
  let src_file := bin_file +:+ ".c" in
  open_write w src_file c_code ;;
  new_customized_compiler w ;;
  status ← try_except
    (objects ← compiler_compile w [src_file] tmp_dir include_dirs;
     compiler_link_executable w objects bin_file libraries library_dirs)
    probe_handlers
    (λ _, mret OK);
  shutil_rmtree tmp_dir ;;
  mret status.

Definition get_r_c_extension_status (w : world) : M COMPILATION_STATUS :=
  emit (EvCall "get_r_c_extension_status") ;;
  r_home ← ext "situation.get_r_home" (situation_get_r_home w);
  let c_ext := CExtensionOptions_new in
  flags ← ext "situation.get_r_flags" (situation_get_r_flags w r_home "--ldflags");
  c_ext ← ext "add_lib" (situation_add_lib w c_ext flags);
  flags ← ext "situation.get_r_flags" (situation_get_r_flags w r_home "--cppflags");
  c_ext ← ext "add_include" (situation_add_include w c_ext flags);
  get_c_extension_status w (Some ["R"]) (Some (include_dirs c_ext))
    (Some (library_dirs c_ext)).

(** ** The module body, up to the choice of [cffi_modules]

    The version guard, the probe and the branch on the cffi mode; the
    imports between them are taken to succeed. *)

Definition python_too_old (v : Z * Z) : bool :=
  (v.1 <? 3) || ((v.1 =? 3) && (v.2 <? 5)).

Definition ffibuilder_abi : string := "rpy2/_rinterface_cffi_build.py:ffibuilder_abi".
Definition ffibuilder_api : string := "rpy2/_rinterface_cffi_build.py:ffibuilder_api".

(** ['API mode requested but %s' % status.value] *)
Definition api_mode_message (s : COMPILATION_STATUS) : string :=
  "API mode requested but " +:+ default "None" (status_value s).

Definition require_ok (s : COMPILATION_STATUS) : M unit :=
  if bool_decide (s ≠ OK)
  then print (api_mode_message s) ;; sys_exit 1
  else mret ().

Definition setup_script (w : world) : M (list string) :=
  if python_too_old (sys_version_info w)
  then print ("rpy2 is no longer supporting Python < 3."
              +:+ "Consider using an older rpy2 release when using an "
              +:+ "older Python release.") ;;
       sys_exit 1
  else
    c_extension_status ← get_r_c_extension_status w;
    cffi_mode ← ext "situation.get_cffi_mode" (situation_get_cffi_mode w);
    match cffi_mode with
    | ABI => mret [ffibuilder_abi]
    | API => require_ok c_extension_status ;; mret [ffibuilder_api]
    | BOTH => require_ok c_extension_status ;; mret [ffibuilder_abi; ffibuilder_api]
    | OtherMode _ => mret [ffibuilder_abi]
    end.

(** The state a fresh interpreter starts the script in. *)
Definition initial_state (fs : gset string) (rng : list string) : pstate :=
  PState fs rng ["R"] [].

(** ** The probe, read off the world

    For a temporary directory [d]: what the [try] block meets, which
    [except] clause answers, and what the whole call yields. *)

Definition bin_file_of (d : string) : string := path_join d "test_pw_r".
Definition src_file_of (d : string) : string := bin_file_of d +:+ ".c".

Definition toolchain_outcome (w : world) (d : string) (libs : list string)
    (incl libdirs : option (list string)) : reply unit :=
  match cc_compile w [src_file_of d] d incl with
  | Raises e => Raises e
  | Returns objs =>
      cc_link_executable w (path_join d <$> objs) (bin_file_of d) libs libdirs
  end.

Definition classify (e : exn_class) : option COMPILATION_STATUS :=
  if issubclass e CCompilerError then Some COMPILE_ERROR
  else if issubclass e DistutilsExecError then Some NO_COMPILER
  else if issubclass e DistutilsPlatformError then Some PLATFORM_ERROR
  else None.

Definition setup_failure (w : world) (d : string) : option exn_class :=
  match fs_open_write w (src_file_of d) c_code with
  | Some e => Some e
  | None =>
      match distutils_new_compiler w with
      | Some e => Some e
      | None => distutils_customize_compiler w
      end
  end.

Definition probe_result (w : world) (d : string) (libs : list string)
    (incl libdirs : option (list string)) : result COMPILATION_STATUS :=
  match setup_failure w d with
  | Some e => Raise e
  | None =>
      match toolchain_outcome w d libs incl libdirs with
      | Returns _ => Ret OK
      | Raises e =>
          match classify e with
          | Some s => Ret s
          | None => Raise e
          end
      end
  end.

(** The temporary directory the next call of the probe will create. *)
Definition next_tmp_dir (w : world) (σ : pstate) : option (string * list string) :=
  pick_fresh (st_fs σ) (tempfile_gettempdir w) "tmp_pw_r_" (st_rng σ).

(** The events a computation adds to the log. *)
Definition emits {A} (P : event → Prop) (m : M A) : Prop :=
  ∀ σ, ∃ l : list event, st_log (m σ).2 = (st_log σ ++ l) ∧ Forall P l.

Definition never_exits {A} (m : M A) : Prop :=
  ∀ σ c, (m σ).1 ≠ Exit c.

(** ** [_get_r_home], read off the world *)

(** What the parsing of the output of [R RHOME] yields. *)
Definition r_home_of_output (out : string) : reply string :=
  match PyStr.split os_linesep out with
  | [] => Raises IndexError
  | first :: others =>
      if PyStr.startswith first "WARNING"
      then match others with
           | second :: _ => Returns (PyStr.rstrip second)
           | [] => Raises IndexError
           end
      else Returns (PyStr.rstrip first)
  end.

Definition get_r_home_result (w : world) (r_bin : string) : result string :=
  match subprocess_check_output w [r_bin; "RHOME"] with
  | Raises _ => Exit 1
  | Returns out =>
      match r_home_of_output out with
      | Returns p => Ret p
      | Raises e => Raise e
      end
  end.

Definition site_events (w : world) (r_home : string) : list event :=
  if os_path_exists w (path_join r_home "Renviron.site")
  then [EvWarn (Renviron_site_warning (path_join r_home "Renviron.site"))]
  else [].

(** What [_get_r_home] logs after the check of the environment. *)
Definition get_r_home_events (w : world) (r_bin : string) : list event :=
  EvCall "subprocess.check_output" ::
  match subprocess_check_output w [r_bin; "RHOME"] with
  | Raises _ =>
      [EvPrint ("Error: Tried to guess R's HOME but no command '" +:+ r_bin
                +:+ "' in the PATH.")]
  | Returns out =>
      match PyStr.split os_linesep out with
      | [] => []
      | first :: others =>
          if PyStr.startswith first "WARNING"
          then EvWarn ("R emitting a warning: " +:+ first) ::
               match others with
               | second :: _ => site_events w (PyStr.rstrip second)
               | [] => []
               end
          else site_events w (PyStr.rstrip first)
      end
  end.


(** The same world with another process environment. *)
Definition with_environ (w : world) (env : gmap string string) : world :=
  World (sys_version_info w) env (subprocess_check_output w) (os_path_exists w)
    (tempfile_gettempdir w) (fs_open_write w) (distutils_new_compiler w)
    (distutils_customize_compiler w) (cc_compile w) (cc_link_executable w)
    (situation_get_r_home w) (situation_get_r_flags w) (situation_add_lib w)
    (situation_add_include w) (situation_get_cffi_mode w).

Definition environ_warning (env : gmap string string) : list event :=
  if is_not_None (env !! "R_ENVIRON") || is_not_None (env !! "R_ENVIRON_USER")
  then [EvWarn R_ENVIRON_warning] else [].


(** ** Lines 135 to 153 on their own *)

(** The probe, the query of the cffi mode and the branch on it, as the
    module body has them after its imports. *)
Definition cffi_modules_block (w : world) : M (list string) :=
  c_extension_status ← get_r_c_extension_status w;
  cffi_mode ← ext "situation.get_cffi_mode" (situation_get_cffi_mode w);
  match cffi_mode with
  | ABI => mret [ffibuilder_abi]
  | API => require_ok c_extension_status ;; mret [ffibuilder_api]
  | BOTH => require_ok c_extension_status ;; mret [ffibuilder_abi; ffibuilder_api]
  | OtherMode _ => mret [ffibuilder_abi]
  end.

(** ** Sample hosts *)

Definition R_include_dir : string := "/usr/share/R/include".

(** A toolchain that finds [Rinterface.h] only when R's include directory
    is passed to it. *)
Definition needs_R_include (incl : option (list string)) : reply (list string) :=
  match incl with
  | Some dirs =>
      if bool_decide (R_include_dir ∈ dirs) then Returns ["test_pw_r.o"]
      else Raises CompileError
  | None => Raises CompileError
  end.

Definition host (v : Z * Z) (rhome : reply string) (write newc : option exn_class)
    (cc : option (list string) → reply (list string)) (ld : reply unit)
    (mode : reply CFFI_MODE) : world :=
  World v ∅ (λ _, rhome) (λ _, false) "/tmp"
    (λ _ _, write) newc None
    (λ _ _ incl, cc incl) (λ _ _ _ _, ld)
    (Returns (Some "/usr/lib/R")) (λ _ _, Returns [])
    (λ c _, Returns c)
    (λ c _, Returns (CExtOpts (libraries c) [R_include_dir] (library_dirs c)))
    mode.

Definition rhome_plain : reply string := Returns ("/usr/lib/R" +:+ PyStr.LF).

Definition host_with_R : world :=
  host (3, 8) rhome_plain None None needs_R_include (Returns ()) (Returns API).

Definition start : pstate := initial_state ∅ ["a"; "b"].

(** The object directory cannot be created: [compile] raises
    [DistutilsFileError]. *)
Definition host_no_object_dir : world :=
  host (3, 8) rhome_plain None None (λ _, Raises DistutilsFileError) (Returns ())
    (Returns API).

(** A platform [new_compiler] knows no compiler for. *)
Definition host_unknown_platform : world :=
  host (3, 8) rhome_plain None (Some DistutilsPlatformError) needs_R_include
    (Returns ()) (Returns API).

(** [R RHOME] prints a warning and nothing else. *)
Definition host_lone_warning : world :=
  host (3, 8) (Returns "WARNING: ignoring environment value of R_HOME") None None
    needs_R_include (Returns ()) (Returns API).

(** [R RHOME] prints two warning lines before the path. *)
Definition host_two_warnings : world :=
  host (3, 8)
    (Returns ("WARNING: first" +:+ PyStr.LF +:+ "WARNING: second  " +:+ PyStr.LF
              +:+ "/usr/lib/R" +:+ PyStr.LF))
    None None needs_R_include (Returns ()) (Returns API).

(** An interpreter older than Python 3.5, everything else in order. *)
Definition host_old_python : world :=
  host (3, 4) rhome_plain None None needs_R_include (Returns ()) (Returns ABI).

(** The probe source cannot be written. *)
Definition host_disk_full : world :=
  host (3, 8) rhome_plain (Some OSError) None needs_R_include (Returns ())
    (Returns API).

(** ** [_format_version] *)

(** [str] of an integer: its decimal digits, after a minus sign when it is
    negative. *)
Definition py_str_int (z : Z) : string := NilZero.string_of_int (Z.to_int z).

(** ['.'.join(map(str, x))] *)
Definition _format_version (x : list Z) : string :=
  String.concat "." (py_str_int <$> x).

(** [c in s] for a single character. *)
Fixpoint has_char (c : ascii) (s : string) : bool :=
  match s with
  | EmptyString => false
  | String a s' => Ascii.eqb a c || has_char c s'
  end.

(** ** The calls of the probe, read off the world *)

(** [rmtree] is reached once a clause has handled the exception. *)
Definition cleanup_events (e : exn_class) : list event :=
  match classify e with
  | Some _ => [EvCall "shutil.rmtree"]
  | None => []
  end.

(** The calls one run of the probe makes, in order, for the temporary
    directory [d]. *)
Definition probe_events (w : world) (d : string) (libs : list string)
    (incl libdirs : option (list string)) : list event :=
  [EvCall "get_c_extension_status"; EvCall "tempfile.mkdtemp"; EvCall "open"] ++
  match fs_open_write w (src_file_of d) c_code with
  | Some _ => []
  | None =>
      EvCall "new_compiler" ::
      match distutils_new_compiler w with
      | Some _ => []
      | None =>
          EvCall "customize_compiler" ::
          match distutils_customize_compiler w with
          | Some _ => []
          | None =>
              EvCall "compiler.compile" ::
              match cc_compile w [src_file_of d] d incl with
              | Raises e => cleanup_events e
              | Returns objs =>
                  EvCall "compiler.link_executable" ::
                  match cc_link_executable w (path_join d <$> objs) (bin_file_of d)
                          libs libdirs with
                  | Returns _ => [EvCall "shutil.rmtree"]
                  | Raises e => cleanup_events e
                  end
              end
          end
      end
  end.

(** The paths the toolchain writes. *)
Definition probe_created (w : world) (d : string) (libs : list string)
    (incl libdirs : option (list string)) : gset string :=
  match cc_compile w [src_file_of d] d incl with
  | Raises _ => ∅
  | Returns objs =>
      match cc_link_executable w (path_join d <$> objs) (bin_file_of d)
              libs libdirs with
      | Returns _ => {[bin_file_of d]} ∪ list_to_set (path_join d <$> objs)
      | Raises _ => list_to_set (path_join d <$> objs)
      end
  end.

(** The queries [get_r_c_extension_status] makes before the probe, and the
    options they leave. *)
Definition r_c_queries (w : world) : reply CExtensionOptions :=
  match situation_get_r_home w with
  | Raises e => Raises e
  | Returns r_home =>
      match situation_get_r_flags w r_home "--ldflags" with
      | Raises e => Raises e
      | Returns ldflags =>
          match situation_add_lib w CExtensionOptions_new ldflags with
          | Raises e => Raises e
          | Returns c_ext =>
              match situation_get_r_flags w r_home "--cppflags" with
              | Raises e => Raises e
              | Returns cppflags => situation_add_include w c_ext cppflags
              end
          end
      end
  end.

Definition r_c_query_events : list event :=
  [EvCall "get_r_c_extension_status"; EvCall "situation.get_r_home";
   EvCall "situation.get_r_flags"; EvCall "add_lib"; EvCall "add_include"].

(** A host where [situation.get_r_home] raises. *)
Definition host_R_query_fails : world :=
  World (3, 8) ∅ (λ _, rhome_plain) (λ _, false) "/tmp"
    (λ _ _, None) None None
    (λ _ _ incl, needs_R_include incl) (λ _ _ _ _, Returns ())
    (Raises OSError) (λ _ _, Returns [])
    (λ c _, Returns c) (λ c _, Returns c)
    (Returns ABI).

(** API mode is asked for on a host whose compiler rejects the probe. *)
Definition host_api_refused : world :=
  host (3, 8) rhome_plain None None (λ _, Raises CompileError) (Returns ())
    (Returns API).

(** ** A toolchain that names its objects as distutils does *)







(** * Properties *)

(** ** Running the monad *)

Lemma run_bind {A B} (m : M A) (f : A → M B) σ :
  (m ≫= f) σ = match m σ with
               | (Ret a, σ') => f a σ'
               | (Raise e, σ') => (Raise e, σ')
               | (Exit c, σ') => (Exit c, σ')
               end.
Proof. reflexivity. Qed.

Lemma run_bind_assoc {A B C} (m : M A) (f : A → M B) (g : B → M C) σ :
  ((m ≫= f) ≫= g) σ = (m ≫= (λ a, f a ≫= g)) σ.
Proof. rewrite !run_bind. destruct (m σ) as [[a|e|c] σ']; reflexivity. Qed.

Lemma run_mret_bind {A B} (a : A) (f : A → M B) σ : (mret a ≫= f) σ = f a σ.
Proof. reflexivity. Qed.

Lemma run_raise_bind {A B} e (f : A → M B) σ : (raise e ≫= f) σ = (Raise e, σ).
Proof. reflexivity. Qed.

Lemma run_emit_bind {B} ev (f : unit → M B) σ :
  (emit ev ≫= f) σ = f () (add_log ev σ).
Proof. reflexivity. Qed.

Lemma run_set_fs_bind {B} g (f : unit → M B) σ :
  (set_fs g ≫= f) σ = f () (upd_fs g σ).
Proof. reflexivity. Qed.

Lemma run_ext {A} fn (r : reply A) σ :
  ext fn r σ = match r with
               | Returns a => (Ret a, add_log (EvCall fn) σ)
               | Raises e => (Raise e, add_log (EvCall fn) σ)
               end.
Proof. destruct r; reflexivity. Qed.

Lemma run_ext_unit fn (r : option exn_class) σ :
  ext_unit fn r σ = match r with
                    | None => (Ret (), add_log (EvCall fn) σ)
                    | Some e => (Raise e, add_log (EvCall fn) σ)
                    end.
Proof. destruct r; reflexivity. Qed.

(** ** Running the probe *)

Lemma run_open_write w path text σ :
  open_write w path text σ =
    (match fs_open_write w path text with
     | None => Ret ()
     | Some e => Raise e
     end,
     upd_fs (λ fs, {[path]} ∪ fs) (add_log (EvCall "open") σ)).
Proof.
  unfold open_write. rewrite run_emit_bind, run_set_fs_bind.
  destruct (fs_open_write w path text); reflexivity.
Qed.

Lemma run_try_except {A B} (body : M A) hs (orelse : A → M B) σ :
  try_except body hs orelse σ =
    match body σ with
    | (Ret a, σ') => orelse a σ'
    | (Raise e, σ') =>
        match find_handler e hs with
        | Some h => h σ'
        | None => (Raise e, σ')
        end
    | (Exit c, σ') => (Exit c, σ')
    end.
Proof. reflexivity. Qed.

Lemma find_handler_probe e :
  find_handler e probe_handlers =
    match classify e with
    | Some s => Some (mret s)
    | None => None
    end.
Proof.
  unfold probe_handlers, classify. cbn [find_handler].
  repeat case_match; reflexivity.
Qed.

Lemma run_mret {A} (a : A) σ : (mret a : M A) σ = (Ret a, σ).
Proof. reflexivity. Qed.

Lemma run_rmtree d σ :
  d ∈ st_fs σ →
  shutil_rmtree d σ =
    (Ret (), upd_fs (filter (λ p, under d p = false)) (add_log (EvCall "shutil.rmtree") σ)).
Proof.
  intros Hd. unfold shutil_rmtree. rewrite run_emit_bind.
  unfold remove_tree. cbn [add_log st_fs]. rewrite bool_decide_eq_true_2 by done.
  reflexivity.
Qed.

Lemma run_compile w sources out incl σ :
  compiler_compile w sources out incl σ =
    match cc_compile w sources out incl with
    | Returns objs =>
        (Ret (path_join out <$> objs),
         upd_fs (λ fs, list_to_set (path_join out <$> objs) ∪ fs)
           (add_log (EvCall "compiler.compile") σ))
    | Raises e => (Raise e, add_log (EvCall "compiler.compile") σ)
    end.
Proof.
  unfold compiler_compile. rewrite run_bind, run_ext.
  destruct (cc_compile w sources out incl); reflexivity.
Qed.

Lemma run_link w objects out libs libdirs σ :
  compiler_link_executable w objects out libs libdirs σ =
    match cc_link_executable w objects out libs libdirs with
    | Returns _ =>
        (Ret (), upd_fs (λ fs, {[out]} ∪ fs)
                   (add_log (EvCall "compiler.link_executable") σ))
    | Raises e => (Raise e, add_log (EvCall "compiler.link_executable") σ)
    end.
Proof.
  unfold compiler_link_executable. rewrite run_bind, run_ext.
  destruct (cc_link_executable w objects out libs libdirs); reflexivity.
Qed.

(** The two ways the probe ends: an exception leaves before [rmtree], or
    a status is chosen and the tree is removed. *)
Ltac probe_raises :=
  eexists; split; [reflexivity|]; cbn; repeat split; try done; set_solver.

Ltac probe_returns :=
  rewrite run_mret; cbv beta iota;
  rewrite run_bind, run_rmtree by (cbn; set_solver);
  eexists; split; [reflexivity|]; cbn;
  repeat split; try done;
  [ intros p Hp Hu; apply elem_of_filter; set_solver
  | intros p Hu [Hf _]%elem_of_filter; congruence ].

Lemma probe_run w libs incl libdirs σ d rest :
  next_tmp_dir w σ = Some (d, rest) →
  ∃ σ', get_c_extension_status w libs incl libdirs σ
        = (probe_result w d (default (st_default_libraries σ) libs) incl libdirs, σ')
      ∧ st_rng σ' = rest
      ∧ st_default_libraries σ' = st_default_libraries σ
      ∧ (∀ p, p ∈ st_fs σ → under d p = false → p ∈ st_fs σ')
      ∧ match probe_result w d (default (st_default_libraries σ) libs) incl libdirs with
        | Ret _ => ∀ p, under d p = true → p ∉ st_fs σ'
        | _ => d ∈ st_fs σ'
        end.
Proof.
  unfold next_tmp_dir. intros Hpick.
  unfold get_c_extension_status, probe_result, setup_failure, toolchain_outcome.
  rewrite run_emit_bind, run_bind. unfold libraries_or_default at 1.
  cbn [add_log st_default_libraries].
  unfold tempfile_mkdtemp. rewrite run_bind_assoc, run_emit_bind.
  rewrite run_bind. unfold mkdir_fresh at 1. cbn [add_log st_fs st_rng st_default_libraries st_log].
  rewrite Hpick.
  fold (bin_file_of d). fold (src_file_of d).
  rewrite run_bind, run_open_write.
  destruct (fs_open_write w (src_file_of d) c_code) as [e|].
  { probe_raises. }
  unfold new_customized_compiler. rewrite !run_bind_assoc, run_bind, run_ext_unit.
  destruct (distutils_new_compiler w) as [e|].
  { probe_raises. }
  rewrite run_bind, run_ext_unit.
  destruct (distutils_customize_compiler w) as [e|].
  { probe_raises. }
  rewrite run_bind, run_try_except, run_bind, run_compile.
  destruct (cc_compile w [src_file_of d] d incl) as [objs|e].
  - rewrite run_link.
    destruct (cc_link_executable _ _ _ _ _) as [[]|e].
    + probe_returns.
    + rewrite find_handler_probe.
      destruct (classify e) as [s|]; [probe_returns|probe_raises].
  - rewrite find_handler_probe.
    destruct (classify e) as [s|]; [probe_returns|probe_raises].
Qed.

Lemma pick_fresh_spec fs dir pre names d rest :
  pick_fresh fs dir pre names = Some (d, rest) → d ∉ fs.
Proof.
  induction names as [|n names IH]; cbn [pick_fresh]; [done|].
  case_bool_decide; [done|]. intros [= <- <-]. done.
Qed.

Lemma probe_run_no_name w libs incl libdirs σ :
  next_tmp_dir w σ = None →
  ∃ σ', get_c_extension_status w libs incl libdirs σ = (Raise FileExistsError, σ')
        ∧ st_fs σ' = st_fs σ.
Proof.
  unfold next_tmp_dir. intros Hpick. unfold get_c_extension_status.
  rewrite run_emit_bind, run_bind. unfold libraries_or_default at 1.
  cbn [add_log st_default_libraries].
  unfold tempfile_mkdtemp. rewrite run_bind_assoc, run_emit_bind.
  rewrite run_bind. unfold mkdir_fresh at 1.
  cbn [add_log st_fs st_rng st_default_libraries st_log].
  rewrite Hpick. eexists; split; reflexivity.
Qed.

Lemma classify_exec e :
  issubclass e DistutilsExecError = true → classify e = Some NO_COMPILER.
Proof. destruct e; vm_compute; congruence. Qed.

Lemma classify_platform e :
  issubclass e DistutilsPlatformError = true → classify e = Some PLATFORM_ERROR.
Proof. destruct e; vm_compute; congruence. Qed.

Lemma classify_ccompiler e :
  issubclass e CCompilerError = true → classify e = Some COMPILE_ERROR.
Proof. unfold classify. intros ->. reflexivity. Qed.

Lemma classify_handled e s :
  classify e = Some s ↔
    (issubclass e CCompilerError = true ∧ s = COMPILE_ERROR)
    ∨ (issubclass e DistutilsExecError = true ∧ s = NO_COMPILER)
    ∨ (issubclass e DistutilsPlatformError = true ∧ s = PLATFORM_ERROR).
Proof.
  split.
  - unfold classify. repeat case_match; intros [= <-]; auto.
  - intros [[H ->]|[[H ->]|[H ->]]];
      auto using classify_ccompiler, classify_exec, classify_platform.
Qed.

(** ** The probe *)




(** C6, counterexample: on a host where [compile] raises
    [DistutilsFileError], and on one where [new_compiler] raises
    [DistutilsPlatformError] before the [try] block is entered, the call
    ends without any of the four members. *)
Lemma probe_not_total :
  (get_c_extension_status host_no_object_dir (Some ["R"]) (Some [R_include_dir])
     (Some []) start).1 = Raise DistutilsFileError
  ∧ (get_c_extension_status host_unknown_platform (Some ["R"])
       (Some [R_include_dir]) (Some []) start).1 = Raise DistutilsPlatformError
  ∧ ¬ ∃ s, (get_c_extension_status host_no_object_dir (Some ["R"])
              (Some [R_include_dir]) (Some []) start).1 = Ret s.
Proof.
  assert (H : (get_c_extension_status host_no_object_dir (Some ["R"])
                 (Some [R_include_dir]) (Some []) start).1
              = Raise DistutilsFileError) by (vm_compute; reflexivity).
  split; [exact H|]. split; [vm_compute; reflexivity|].
  intros [s Hs]. rewrite H in Hs. discriminate.
Qed.

(** C6, amended: the four members are pairwise distinct, and a call
    returns one of them exactly when the steps before the [try] block
    succeed and the compile-and-link succeeds or raises an exception
    deriving from one of the three handled classes; every other exception
    (no temporary directory, the source write, the creation of the
    compiler, an unhandled class from the compile-and-link) leaves the call
    and no member is produced. *)
Theorem get_c_extension_status_total_on_handled w libs incl libdirs σ :
  let returned := (get_c_extension_status w libs incl libdirs σ).1 in
  (next_tmp_dir w σ = None → returned = Raise FileExistsError)
  ∧ (∀ d rest, next_tmp_dir w σ = Some (d, rest) →
       let outcome :=
         toolchain_outcome w d (default (st_default_libraries σ) libs) incl libdirs in
       ((∃ s, returned = Ret s) ↔
          setup_failure w d = None
          ∧ (outcome = Returns ()
             ∨ ∃ e, outcome = Raises e
                    ∧ (issubclass e CCompilerError = true
                       ∨ issubclass e DistutilsExecError = true
                       ∨ issubclass e DistutilsPlatformError = true)))
       ∧ (∀ e, setup_failure w d = Some e → returned = Raise e)
       ∧ (∀ e, setup_failure w d = None → outcome = Raises e →
               classify e = None → returned = Raise e))
  ∧ (∀ s1 s2, status_value s1 = status_value s2 → s1 = s2).
Proof.
  intros returned. split; [|split].
  - intros Hd.
    destruct (probe_run_no_name w libs incl libdirs σ Hd) as (σ' & Hrun & _).
    subst returned. rewrite Hrun. reflexivity.
  - intros d rest Hd outcome.
    destruct (probe_run w libs incl libdirs σ d rest Hd) as (σ' & Hrun & _).
    subst returned outcome. rewrite Hrun. cbn [fst]. unfold probe_result.
    split; [|split].
    + destruct (setup_failure w d) as [e0|].
      { split; [intros [s [=]]|intros [[=] _]]. }
      destruct (toolchain_outcome _ _ _ _ _) as [[]|e].
      { split; eauto. }
      destruct (classify e) as [s|] eqn:Hc.
      * split; [intros _|eauto]. split; [done|]. right. exists e. split; [done|].
        apply classify_handled in Hc. tauto.
      * split; [intros [s [=]]|].
        intros [_ [[=]|(e' & [= <-] & He)]].
        assert (∃ s, classify e = Some s) as [s Hs]; [|congruence].
        destruct He as [He|[He|He]]; eexists; apply classify_handled; eauto.
    + intros e ->. reflexivity.
    + intros e -> -> ->. reflexivity.
  - intros [] []; vm_compute; congruence.
Qed.

Lemma get_c_extension_status_total_on_handled_witness :
  ∃ s, (get_c_extension_status host_with_R (Some ["R"]) None None start).1 = Ret s.
Proof.
  apply (proj2 (proj1 (proj1 (proj2 (get_c_extension_status_total_on_handled
                                       host_with_R (Some ["R"]) None None start))
                         "/tmp/tmp_pw_r_a" ["b"] eq_refl))).
  split; [reflexivity|]. right. exists CompileError. split; [reflexivity|].
  left. reflexivity.
Defined.

(** C8, counterexample: the probe source is fixed and includes
    [Rinterface.h]; on a host whose compiler finds that header only in R's
    include directory, the call with [libraries=[]] and no directories
    returns [COMPILE_ERROR], not [OK]. *)
Lemma probe_without_dirs_fails :
  PyStr.startswith c_code "#include <Rinterface.h>" = true
  ∧ (get_c_extension_status host_with_R (Some []) None None start).1
    = Ret COMPILE_ERROR
  ∧ (get_c_extension_status host_with_R (Some []) None None start).1 ≠ Ret OK.
Proof.
  split; [reflexivity|].
  assert (H : (get_c_extension_status host_with_R (Some []) None None start).1
              = Ret COMPILE_ERROR) by (vm_compute; reflexivity).
  split; [exact H|]. rewrite H. discriminate.
Qed.

(** C8, amended: called with [libraries=[]] and no include or library
    directories, the probe compiles its fixed source, which includes
    [Rinterface.h]; it returns [OK] exactly when that compile and the link
    both succeed, and [COMPILE_ERROR] when the compiler rejects the
    source. *)
Theorem get_c_extension_status_without_dirs w σ d rest :
  next_tmp_dir w σ = Some (d, rest) →
  setup_failure w d = None →
  let returned := (get_c_extension_status w (Some []) None None σ).1 in
  PyStr.startswith c_code "#include <Rinterface.h>" = true
  ∧ (returned = Ret OK ↔ toolchain_outcome w d [] None None = Returns ())
  ∧ (∀ e, cc_compile w [src_file_of d] d None = Raises e →
          issubclass e CCompilerError = true → returned = Ret COMPILE_ERROR).
Proof.
  intros Hd Hsetup returned.
  destruct (probe_run w (Some []) None None σ d rest Hd) as (σ' & Hrun & _).
  subst returned. rewrite Hrun. cbn [fst]. change (default _ (Some [])) with (@nil string).
  unfold probe_result.
  rewrite Hsetup. split; [reflexivity|]. split.
  - destruct (toolchain_outcome w d [] None None) as [[]|e]; [split; done|].
    destruct (classify e) as [s|] eqn:Hc; [|split; done].
    split; [|done]. intros [= ->].
    apply classify_handled in Hc.
    destruct Hc as [[_ [=]]|[[_ [=]]|[_ [=]]]].
  - intros e He Hsub. unfold toolchain_outcome. rewrite He.
    rewrite (classify_ccompiler e Hsub). reflexivity.
Qed.

Lemma get_c_extension_status_without_dirs_witness :
  (get_c_extension_status host_with_R (Some []) None None start).1
  = Ret COMPILE_ERROR.
Proof.
  apply (proj2 (proj2 (get_c_extension_status_without_dirs host_with_R start
                         "/tmp/tmp_pw_r_a" ["b"] eq_refl eq_refl)) CompileError);
    reflexivity.
Defined.

(** C2, at the failing input: when the write of the probe source raises,
    the exception leaves the call before [rmtree] is reached; the temporary
    directory the call made, and the source file in it, are still there. *)
Lemma tmp_dir_left_behind :
  let r := get_c_extension_status host_disk_full (Some ["R"]) None None start in
  next_tmp_dir host_disk_full start = Some ("/tmp/tmp_pw_r_a", ["b"])
  ∧ r.1 = Raise OSError
  ∧ ("/tmp/tmp_pw_r_a" ∉ st_fs start)
  ∧ ("/tmp/tmp_pw_r_a" ∈ st_fs r.2)
  ∧ ("/tmp/tmp_pw_r_a/test_pw_r.c" ∈ st_fs r.2).
Proof.
  cbv zeta. split; [reflexivity|]. split; [vm_compute; reflexivity|].
  split; [set_solver|].
  split; refine (bool_decide_unpack _ _); vm_compute; exact I.
Qed.

(** The paths of the call that do clean up: whenever a status is
    returned, the temporary directory and every path below it no longer
    exist, and no other path has been removed. *)
Lemma tmp_dir_removed_on_return w libs incl libdirs σ d rest :
  next_tmp_dir w σ = Some (d, rest) →
  let r := get_c_extension_status w libs incl libdirs σ in
  (d ∉ st_fs σ)
  ∧ (∀ s, r.1 = Ret s → ∀ p, under d p = true → p ∉ st_fs r.2)
  ∧ (∀ p, p ∈ st_fs σ → under d p = false → p ∈ st_fs r.2).
Proof.
  intros Hd r. split; [exact (pick_fresh_spec _ _ _ _ _ _ Hd)|].
  destruct (probe_run w libs incl libdirs σ d rest Hd)
    as (σ' & Hrun & _ & _ & Hframe & Hend).
  subst r. rewrite Hrun. cbn [fst snd]. split; [|exact Hframe].
  intros s Hs. rewrite Hs in Hend. exact Hend.
Qed.



(** ** Running [_get_r_home] *)

Lemma run_try_bare {A} (body handler : M A) σ :
  try_bare body handler σ =
    match body σ with
    | (Ret a, σ') => (Ret a, σ')
    | (Raise _, σ') | (Exit _, σ') => handler σ'
    end.
Proof. reflexivity. Qed.

Lemma split_go_nonempty sep s : ∀ skip cur, PyStr.split_go sep skip cur s ≠ [].
Proof.
  induction s as [|a s IH]; intros skip cur; cbn [PyStr.split_go]; [done|].
  destruct skip; [|apply IH]. case_match; [done|apply IH].
Qed.

Lemma run_site_check w r_home σ :
  ((if os_path_exists w (path_join r_home "Renviron.site")
    then warnings_warn (Renviron_site_warning (path_join r_home "Renviron.site"))
    else mret ()) ≫= λ _, mret r_home) σ
  = (Ret r_home,
     PState (st_fs σ) (st_rng σ) (st_default_libraries σ)
       (st_log σ ++ site_events w r_home)).
Proof.
  unfold site_events. destruct (os_path_exists w _).
  - reflexivity.
  - rewrite run_mret_bind, run_mret, app_nil_r. destruct σ; reflexivity.
Qed.

Lemma get_r_home_run w r_bin σ env :
  ∃ σ', _get_r_home (with_environ w env) r_bin σ = (get_r_home_result w r_bin, σ')
    ∧ st_log σ' = (st_log σ ++ environ_warning env ++ get_r_home_events w r_bin)
    ∧ st_fs σ' = st_fs σ.
Proof.
  unfold _get_r_home, get_r_home_result, r_home_of_output, environ_warning,
    get_r_home_events.
  cbn [with_environ os_environ subprocess_check_output os_path_exists].
  rewrite run_bind.
  set (σ0 := if is_not_None (env !! "R_ENVIRON") || is_not_None (env !! "R_ENVIRON_USER")
             then add_log (EvWarn R_ENVIRON_warning) σ else σ).
  assert (Hσ0 : (if is_not_None (env !! "R_ENVIRON")
                    || is_not_None (env !! "R_ENVIRON_USER")
                 then warnings_warn R_ENVIRON_warning else mret ()) σ = (Ret (), σ0)).
  { subst σ0. destruct (_ || _); reflexivity. }
  rewrite Hσ0.
  assert (Hlog0 : st_log σ0 = (st_log σ ++
            (if is_not_None (env !! "R_ENVIRON") || is_not_None (env !! "R_ENVIRON_USER")
             then [EvWarn R_ENVIRON_warning] else []))).
  { subst σ0. destruct (_ || _); cbn; [reflexivity|]. rewrite app_nil_r. reflexivity. }
  assert (Hfs0 : st_fs σ0 = st_fs σ) by (subst σ0; destruct (_ || _); reflexivity).
  clearbody σ0. clear Hσ0.
  rewrite run_bind, run_try_bare, run_ext.
  destruct (subprocess_check_output w [r_bin; "RHOME"]) as [out|e].
  - destruct (PyStr.split os_linesep out) as [|first others] eqn:Hsplit.
    { exfalso. revert Hsplit. apply split_go_nonempty. }
    change (py_index (first :: others) 0) with (mret first : M string).
    rewrite run_mret_bind, run_bind.
    destruct (PyStr.startswith first "WARNING").
    + unfold warnings_warn at 1. rewrite run_emit_bind.
      destruct others as [|second others].
      * change (py_index [first] 1) with (raise IndexError : M string).
        rewrite run_raise_bind.
        eexists; split; [reflexivity|]. cbn.
        rewrite Hlog0, Hfs0, <- !app_assoc. done.
      * change (py_index (first :: second :: others) 1) with (mret second : M string).
        rewrite run_mret_bind, run_mret. rewrite run_site_check.
        eexists; split; [reflexivity|]. cbn.
        rewrite Hlog0, Hfs0, <- !app_assoc. done.
    + rewrite run_mret, run_site_check.
      eexists; split; [reflexivity|]. cbn.
      rewrite Hlog0, Hfs0, <- !app_assoc. done.
  - unfold print. rewrite run_emit_bind.
    eexists; split; [reflexivity|]. cbn.
    rewrite Hlog0, Hfs0, <- !app_assoc. done.
Qed.

Lemma with_environ_same w : with_environ w (os_environ w) = w.
Proof. destruct w; reflexivity. Qed.

Lemma get_r_home_returned w r_bin σ :
  (_get_r_home w r_bin σ).1 = get_r_home_result w r_bin.
Proof.
  destruct (get_r_home_run w r_bin σ (os_environ w)) as (σ' & Hrun & _).
  rewrite with_environ_same in Hrun. rewrite Hrun. reflexivity.
Qed.

(** C7: the value [_get_r_home] returns, and whether it returns at all, is
    the same under any two process environments, so in particular under
    two that differ in [R_ENVIRON] and [R_ENVIRON_USER] only; the
    environment decides nothing but the presence of the first warning in
    the log. *)
Theorem get_r_home_ignores_environ w r_bin σ env1 env2 :
  let r1 := _get_r_home (with_environ w env1) r_bin σ in
  let r2 := _get_r_home (with_environ w env2) r_bin σ in
  r1.1 = r2.1
  ∧ st_fs r1.2 = st_fs r2.2
  ∧ st_log r1.2 = (st_log σ ++ environ_warning env1 ++ get_r_home_events w r_bin)
  ∧ st_log r2.2 = (st_log σ ++ environ_warning env2 ++ get_r_home_events w r_bin)
  ∧ (environ_warning env1 = [] ↔
       env1 !! "R_ENVIRON" = None ∧ env1 !! "R_ENVIRON_USER" = None).
Proof.
  cbv zeta.
  destruct (get_r_home_run w r_bin σ env1) as (σ1 & -> & Hlog1 & Hfs1).
  destruct (get_r_home_run w r_bin σ env2) as (σ2 & -> & Hlog2 & Hfs2).
  cbn [fst snd]. rewrite Hfs1, Hfs2.
  split; [done|]. split; [done|]. split; [done|]. split; [done|].
  unfold environ_warning.
  destruct (env1 !! "R_ENVIRON"), (env1 !! "R_ENVIRON_USER"); cbn;
    split; try done; intros [? ?]; done.
Qed.

(** C5, counterexample: when the output is a single warning line with no
    line separator after it, there is no second line to return and the
    indexing raises [IndexError]. *)
Lemma get_r_home_lone_warning :
  PyStr.split os_linesep "WARNING: ignoring environment value of R_HOME"
  = ["WARNING: ignoring environment value of R_HOME"]
  ∧ PyStr.startswith "WARNING: ignoring environment value of R_HOME" "WARNING" = true
  ∧ (_get_r_home host_lone_warning "R" start).1 = Raise IndexError.
Proof. repeat split; vm_compute; reflexivity. Qed.

(** C5, amended: the output is split at the line separator; when the first
    line does not start with "WARNING" the first line is returned with its
    trailing whitespace stripped; when it does, a warning is emitted and,
    provided the output has a second line, that second line is returned
    stripped, whatever it holds, so a second warning line is returned as
    the R home. *)
Theorem get_r_home_parses_output w r_bin σ out :
  subprocess_check_output w [r_bin; "RHOME"] = Returns out →
  let lines := PyStr.split os_linesep out in
  let r := _get_r_home w r_bin σ in
  lines ≠ []
  ∧ (∀ first others, lines = first :: others →
       PyStr.startswith first "WARNING" = false →
       r.1 = Ret (PyStr.rstrip first))
  ∧ (∀ first second others, lines = first :: second :: others →
       PyStr.startswith first "WARNING" = true →
       r.1 = Ret (PyStr.rstrip second)
       ∧ EvWarn ("R emitting a warning: " +:+ first) ∈ st_log r.2).
Proof.
  intros Hout lines r.
  destruct (get_r_home_run w r_bin σ (os_environ w)) as (σ' & Hrun & Hlog & _).
  rewrite with_environ_same in Hrun. subst r lines. rewrite Hrun. cbn [fst snd].
  unfold get_r_home_result, r_home_of_output. rewrite Hout.
  split; [apply split_go_nonempty|]. split.
  - intros first others -> ->. reflexivity.
  - intros first second others Hl Hw. rewrite Hlog.
    unfold get_r_home_events. rewrite Hout, Hl, Hw. split; [reflexivity|].
    rewrite !elem_of_app. right. right. set_solver.
Qed.

Lemma get_r_home_parses_output_witness :
  (_get_r_home host_two_warnings "R" start).1 = Ret "WARNING: second".
Proof.
  apply (proj1 (proj2 (proj2 (get_r_home_parses_output host_two_warnings "R" start _
                                eq_refl))
                  "WARNING: first" "WARNING: second  " ["/usr/lib/R"; ""]
                  eq_refl eq_refl)).
Defined.

(** ** What a computation logs, and whether it can leave by [sys.exit] *)

Lemma emits_mret {A} P (a : A) : emits P (mret a : M A).
Proof. intros σ. exists []. rewrite app_nil_r. done. Qed.

Lemma emits_raise {A} P e : emits P (raise e : M A).
Proof. intros σ. exists []. rewrite app_nil_r. done. Qed.

Lemma emits_sys_exit {A} P c : emits P (sys_exit c : M A).
Proof. intros σ. exists []. rewrite app_nil_r. done. Qed.

Lemma emits_emit (P : event → Prop) ev : P ev → emits P (emit ev).
Proof. intros Hev σ. exists [ev]. split; [reflexivity|]. by constructor. Qed.

Lemma emits_bind {A B} P (m : M A) (f : A → M B) :
  emits P m → (∀ a, emits P (f a)) → emits P (m ≫= f).
Proof.
  intros Hm Hf σ. rewrite run_bind.
  destruct (Hm σ) as (l1 & Hl1 & HP1).
  destruct (m σ) as [[a|e|c] σ1]; cbn [snd] in *; [|by exists l1..].
  destruct (Hf a σ1) as (l2 & Hl2 & HP2).
  exists (l1 ++ l2). rewrite Hl2, Hl1, app_assoc. split; [done|].
  apply Forall_app; done.
Qed.

Lemma emits_set_fs P g : emits P (set_fs g).
Proof. intros σ. exists []. rewrite app_nil_r. done. Qed.

Lemma emits_ext {A} (P : event → Prop) fn (r : reply A) :
  P (EvCall fn) → emits P (ext fn r).
Proof.
  intros Hfn. unfold ext. apply emits_bind; [by apply emits_emit|].
  intros _. destruct r; [apply emits_mret|apply emits_raise].
Qed.

Lemma emits_ext_unit (P : event → Prop) fn r :
  P (EvCall fn) → emits P (ext_unit fn r).
Proof.
  intros Hfn. unfold ext_unit. apply emits_bind; [by apply emits_emit|].
  intros _. destruct r; [apply emits_raise|apply emits_mret].
Qed.

Lemma emits_mkdir_fresh P w pre : emits P (mkdir_fresh w pre).
Proof.
  intros σ. exists []. rewrite app_nil_r. unfold mkdir_fresh.
  destruct (pick_fresh _ _ _ _) as [[p rest]|]; done.
Qed.

Lemma emits_remove_tree P d : emits P (remove_tree d).
Proof.
  intros σ. exists []. rewrite app_nil_r. unfold remove_tree.
  case_bool_decide; done.
Qed.

Lemma emits_libraries_or_default P libs : emits P (libraries_or_default libs).
Proof. intros σ. exists []. rewrite app_nil_r. done. Qed.

Lemma emits_try_except {A B} P (body : M A) hs (orelse : A → M B) :
  emits P body → Forall (λ h, emits P h.2) hs → (∀ a, emits P (orelse a)) →
  emits P (try_except body hs orelse).
Proof.
  intros Hbody Hhs Helse σ. rewrite run_try_except.
  destruct (Hbody σ) as (l1 & Hl1 & HP1).
  destruct (body σ) as [[a|e|c] σ1]; cbn [snd] in *; [| |by exists l1].
  - destruct (Helse a σ1) as (l2 & Hl2 & HP2).
    exists (l1 ++ l2). rewrite Hl2, Hl1, app_assoc. split; [done|].
    apply Forall_app; done.
  - assert (Hfind : match find_handler e hs with
                    | Some h => emits P h
                    | None => True
                    end).
    { induction Hhs as [|[c h] hs Hh _ IH]; cbn [find_handler]; [done|].
      destruct (issubclass e c); [exact Hh|exact IH]. }
    destruct (find_handler e hs) as [h|]; [|by exists l1].
    destruct (Hfind σ1) as (l2 & Hl2 & HP2).
    exists (l1 ++ l2). rewrite Hl2, Hl1, app_assoc. split; [done|].
    apply Forall_app; done.
Qed.

Create HintDb emits.
#[local] Hint Resolve emits_mret emits_raise emits_sys_exit emits_emit emits_set_fs
  emits_ext emits_ext_unit emits_mkdir_fresh emits_remove_tree
  emits_libraries_or_default : emits.
#[local] Hint Extern 1 (_ ∉ _) =>
  refine (bool_decide_unpack _ _); vm_compute; exact I : emits.

Ltac emits_step :=
  first [ solve [eauto with emits]
        | apply emits_try_except; [| |intros ?]
        | apply emits_bind; [|intros ?]
        | apply Forall_cons; split; [cbn [snd]|]
        | apply Forall_nil ].

Lemma emits_probe (banned : list event) w libs incl libdirs :
  Forall (λ fn, EvCall fn ∉ banned)
    ["get_c_extension_status"; "tempfile.mkdtemp"; "open"; "new_compiler";
     "customize_compiler"; "compiler.compile"; "compiler.link_executable";
     "shutil.rmtree"] →
  emits (λ ev, ev ∉ banned) (get_c_extension_status w libs incl libdirs).
Proof.
  intros Hb. rewrite !Forall_cons in Hb. destruct_and!.
  unfold get_c_extension_status, tempfile_mkdtemp, open_write,
    new_customized_compiler, compiler_compile, compiler_link_executable,
    shutil_rmtree, probe_handlers.
  repeat first [ emits_step
               | match goal with
                 | |- emits _ (match ?x with _ => _ end) => destruct x
                 end ].
Qed.

Lemma never_exits_emit ev : never_exits (emit ev).
Proof. intros σ c. discriminate. Qed.

Lemma never_exits_bind {A B} (m : M A) (f : A → M B) :
  never_exits m → (∀ a, never_exits (f a)) → never_exits (m ≫= f).
Proof.
  intros Hm Hf σ c. rewrite run_bind. specialize (Hm σ).
  destruct (m σ) as [[a|e|c'] σ1]; cbn [fst] in *; [apply Hf|discriminate|].
  intros [= ->]. by apply (Hm c).
Qed.

Lemma never_exits_ext {A} fn (r : reply A) : never_exits (ext fn r).
Proof. intros σ c. rewrite run_ext. destruct r; discriminate. Qed.

Lemma never_exits_probe w libs incl libdirs :
  never_exits (get_c_extension_status w libs incl libdirs).
Proof.
  intros σ c. destruct (next_tmp_dir w σ) as [[d rest]|] eqn:Hd.
  - destruct (probe_run w libs incl libdirs σ d rest Hd) as (σ' & -> & _).
    cbn [fst]. unfold probe_result.
    repeat case_match; discriminate.
  - destruct (probe_run_no_name w libs incl libdirs σ Hd) as (σ' & -> & _).
    discriminate.
Qed.

Lemma never_exits_r_c_probe w : never_exits (get_r_c_extension_status w).
Proof.
  unfold get_r_c_extension_status.
  repeat first [ apply never_exits_probe | apply never_exits_ext
               | apply never_exits_emit
               | apply never_exits_bind; [|intros ?] ].
Qed.



Lemma emits_script (banned : list event) w :
  bool_decide (Forall (λ fn, EvCall fn ∉ banned)
    ["get_c_extension_status"; "tempfile.mkdtemp"; "open"; "new_compiler";
     "customize_compiler"; "compiler.compile"; "compiler.link_executable";
     "shutil.rmtree"; "get_r_c_extension_status"; "situation.get_r_home";
     "situation.get_r_flags"; "add_lib"; "add_include";
     "situation.get_cffi_mode"]) = true →
  (∀ msg, EvPrint msg ∉ banned) →
  emits (λ ev, ev ∉ banned) (setup_script w).
Proof.
  intros Hb Hprint. apply bool_decide_eq_true_1 in Hb.
  rewrite !Forall_cons in Hb. destruct_and!.
  unfold setup_script, get_r_c_extension_status, require_ok, print.
  destruct (python_too_old _).
  - repeat emits_step.
  - repeat first [ apply emits_probe; repeat (apply Forall_cons; split); done
                 | emits_step
                 | match goal with
                   | |- emits _ (match ?x with _ => _ end) => destruct x
                   | |- emits _ (if ?x then _ else _) => destruct x
                   end ].
Qed.

(** ** The module body *)

(** C3, counterexample: under Python 3.4 the script leaves with
    [sys.exit(1)] although [R RHOME] answers and the mode is ABI. *)
Lemma exit_on_old_python :
  (setup_script host_old_python start).1 = Exit 1
  ∧ subprocess_check_output host_old_python ["R"; "RHOME"]
    = Returns ("/usr/lib/R" +:+ PyStr.LF)
  ∧ situation_get_cffi_mode host_old_python = Returns ABI.
Proof. repeat split; vm_compute; reflexivity. Qed.

(** C3, amended: [sys.exit] is called with code 1 and in three cases:
    by the version guard at the top of the script when the interpreter is
    older than Python 3.5; inside [_get_r_home] exactly when the
    invocation of [R RHOME] raises; and in the module body exactly when
    the probe returned a status other than [OK] and the cffi mode is API
    or BOTH.  The module body does not run [_get_r_home]: no call of
    [subprocess.check_output] is logged, and the probe never exits. *)
Theorem sys_exit_cases w :
  (∀ r_bin σ c, (_get_r_home w r_bin σ).1 = Exit c ↔
     c = 1 ∧ ∃ e, subprocess_check_output w [r_bin; "RHOME"] = Raises e)
  ∧ (∀ σ c, (setup_script w σ).1 = Exit c ↔
       c = 1
       ∧ (python_too_old (sys_version_info w) = true
          ∨ (python_too_old (sys_version_info w) = false
             ∧ ∃ s σ1 m, get_r_c_extension_status w σ = (Ret s, σ1)
                 ∧ situation_get_cffi_mode w = Returns m
                 ∧ (m = API ∨ m = BOTH) ∧ s ≠ OK)))
  ∧ never_exits (get_r_c_extension_status w)
  ∧ (∀ σ, ∃ l, st_log (setup_script w σ).2 = st_log σ ++ l
               ∧ (EvCall "subprocess.check_output" ∉ l)).
Proof.
  split; [|split; [|split]].
  - intros r_bin σ c. rewrite get_r_home_returned. unfold get_r_home_result.
    destruct (subprocess_check_output w [r_bin; "RHOME"]) as [out|e].
    + destruct (r_home_of_output out); split; try discriminate;
        intros [_ [e' [=]]].
    + split; [intros [= <-]; eauto|intros [-> _]; reflexivity].
  - intros σ c. unfold setup_script.
    destruct (python_too_old (sys_version_info w)) eqn:Hold.
    { unfold print. rewrite run_emit_bind. cbn [fst sys_exit].
      split; [intros [= <-]; auto|intros [-> _]; reflexivity]. }
    rewrite run_bind.
    destruct (get_r_c_extension_status w σ) as [[s|e|c'] σ1] eqn:Hprobe.
    + rewrite run_bind, run_ext.
      destruct (situation_get_cffi_mode w) as [m|e'].
      2:{ split; [discriminate|]. intros [_ [[=]|[_ (?&?&?&_&[=]&_)]]]. }
      destruct m; unfold require_ok.
      * split; [discriminate|].
        intros [_ [[=]|[_ (?&?&?&_&[= <-]&[[=]|[=]]&_)]]].
      * case_bool_decide as Hs.
        -- unfold print. rewrite run_bind_assoc, run_emit_bind.
           split; [intros [= <-]|intros [-> _]; reflexivity].
           split; [done|]. right. split; [done|]. exists s, σ1, API. auto.
        -- split; [discriminate|].
           intros [_ [[=]|[_ (s'&?&?&[= <- _]&_&_&Hs')]]]. done.
      * case_bool_decide as Hs.
        -- unfold print. rewrite run_bind_assoc, run_emit_bind.
           split; [intros [= <-]|intros [-> _]; reflexivity].
           split; [done|]. right. split; [done|]. exists s, σ1, BOTH. auto.
        -- split; [discriminate|].
           intros [_ [[=]|[_ (s'&?&?&[= <- _]&_&_&Hs')]]]. done.
      * split; [discriminate|].
        intros [_ [[=]|[_ (?&?&?&_&[= <-]&[[=]|[=]]&_)]]].
    + split; [discriminate|]. intros [_ [[=]|[_ (?&?&?&[=]&_)]]].
    + exfalso. apply (never_exits_r_c_probe w σ c'). rewrite Hprobe. reflexivity.
  - apply never_exits_r_c_probe.
  - intros σ.
    destruct (emits_script [EvCall "subprocess.check_output"] w) with (σ := σ)
      as (l & Hl & HP).
    + vm_compute. reflexivity.
    + intros msg [=]%list_elem_of_singleton.
    + exists l. split; [done|]. intros Hin.
      rewrite Forall_forall in HP. apply (HP _ Hin). set_solver.
Qed.

(** With the imports taken to succeed, the script past its version guard is
    the block of lines 135 to 153. *)
Lemma setup_script_past_guard w :
  python_too_old (sys_version_info w) = false →
  setup_script w = cffi_modules_block w.
Proof. intros Hver. unfold setup_script. rewrite Hver. reflexivity. Qed.


(** ** [cmp_version] *)

Lemma cmp_version_cons (x0 y0 : Z) (xs ys : list Z) :
  cmp_version (x0 :: xs) (y0 :: ys) =
    if x0 <? y0 then Returns (Some (-1))
    else if x0 >? y0 then Returns (Some 1)
    else match xs, ys with
         | [], _ | _, [] => Returns (Some 0)
         | _, _ => cmp_version xs ys
         end.
Proof.
  cbn [cmp_version length].
  destruct (Z.ltb_spec x0 y0) as [Hlt|Hge]; [reflexivity|].
  destruct (Z.gtb_spec x0 y0) as [Hgt|Hle]; [reflexivity|].
  assert ((x0 =? y0) = true) as -> by (apply Z.eqb_eq; lia).
  destruct xs, ys; reflexivity.
Qed.

Lemma cmp_version_total (x y : list Z) :
  x ≠ [] → y ≠ [] →
  ∃ a, cmp_version x y = Returns (Some a) ∧ (a = -1 ∨ a = 0 ∨ a = 1).
Proof.
  revert y. induction x as [|x0 xs IH]; intros [|y0 ys] Hx Hy; try done.
  rewrite cmp_version_cons.
  destruct (x0 <? y0); [eauto|]. destruct (x0 >? y0); [eauto|].
  destruct xs as [|x1 xs]; [eauto|]. destruct ys as [|y1 ys]; [eauto|].
  apply IH; done.
Qed.

Lemma cmp_version_flip (x y : list Z) (a : Z) :
  cmp_version x y = Returns (Some a) → cmp_version y x = Returns (Some (- a)).
Proof.
  revert y. induction x as [|x0 xs IH]; intros [|y0 ys]; try done.
  rewrite !cmp_version_cons.
  destruct (Z.ltb_spec x0 y0) as [Hlt|Hge].
  - intros [= <-].
    destruct (Z.ltb_spec y0 x0); [lia|].
    destruct (Z.gtb_spec y0 x0); [done|lia].
  - destruct (Z.gtb_spec x0 y0) as [Hgt|Hle].
    + intros [= <-]. destruct (Z.ltb_spec y0 x0); [done|lia].
    + destruct (Z.ltb_spec y0 x0); [lia|].
      destruct (Z.gtb_spec y0 x0); [lia|].
      destruct xs as [|x1 xs], ys as [|y1 ys]; try (intros [= <-]; done).
      apply IH.
Qed.

Lemma cmp_version_prefix_l (x ext : list Z) :
  x ≠ [] → cmp_version x (x ++ ext) = Returns (Some 0).
Proof.
  induction x as [|x0 xs IH]; [done|]. intros _.
  rewrite <- app_comm_cons, cmp_version_cons.
  rewrite Z.ltb_irrefl.
  assert ((x0 >? x0) = false) as -> by (rewrite Z.gtb_ltb; apply Z.ltb_irrefl).
  destruct xs as [|x1 xs]; [done|].
  cbn [app]. rewrite <- (app_comm_cons xs ext x1) in IH.
  apply IH; done.
Qed.

(** C9: on non-empty tuples of integers [cmp_version] returns -1, 0 or 1
    and is antisymmetric; when the tuples agree on their common prefix and
    one of them has length 1 the result is 0; a tuple compares equal to
    every longer tuple it is a prefix of, as (3,) and (3, 3) do. *)
Theorem cmp_version_antisymmetric_prefix_blind (x y : list Z) :
  x ≠ [] → y ≠ [] →
  (∃ a, cmp_version x y = Returns (Some a)
        ∧ cmp_version y x = Returns (Some (- a))
        ∧ (a = -1 ∨ a = 0 ∨ a = 1))
  ∧ (take (length x `min` length y) x = take (length x `min` length y) y →
     length x = 1%nat ∨ length y = 1%nat →
     cmp_version x y = Returns (Some 0))
  ∧ (∀ ext, cmp_version x (x ++ ext) = Returns (Some 0)
            ∧ cmp_version (x ++ ext) x = Returns (Some 0))
  ∧ cmp_version [3] [3; 3] = Returns (Some 0).
Proof.
  intros Hx Hy. split; [|split; [|split]].
  - destruct (cmp_version_total x y Hx Hy) as (a & Ha & Hrange).
    exists a. auto using cmp_version_flip.
  - destruct x as [|x0 xs], y as [|y0 ys]; try done.
    cbn [length]. rewrite Nat.min_comm. cbn [Nat.min take].
    intros [= <- _] Hone. rewrite cmp_version_cons, Z.ltb_irrefl.
    assert ((x0 >? x0) = false) as -> by (rewrite Z.gtb_ltb; apply Z.ltb_irrefl).
    destruct xs, ys; try done. cbn [length] in Hone. lia.
  - intros ext.
    pose proof (cmp_version_prefix_l x ext Hx) as H0.
    split; [exact H0|]. apply (cmp_version_flip _ _ 0 H0).
  - reflexivity.
Qed.

Lemma cmp_version_antisymmetric_prefix_blind_witness :
  ∃ a, cmp_version [3; 4] [3; 5; 1] = Returns (Some a)
       ∧ cmp_version [3; 5; 1] [3; 4] = Returns (Some (- a))
       ∧ (a = -1 ∨ a = 0 ∨ a = 1).
Proof.
  apply (proj1 (cmp_version_antisymmetric_prefix_blind [3; 4] [3; 5; 1]
                  ltac:(discriminate) ltac:(discriminate))).
Defined.

(** * Further properties *)

(** ** [cmp_version] on all inputs *)

(** X1: [cmp_version] raises exactly when one of the tuples is empty, and
    then it is [IndexError]; on integers it never falls off its end, so it
    never returns [None]. *)
Theorem cmp_version_raises_iff_empty (x y : list Z) :
  (cmp_version x y = Raises IndexError ↔ x = [] ∨ y = [])
  ∧ (∀ e, cmp_version x y = Raises e → e = IndexError)
  ∧ cmp_version x y ≠ Returns None.
Proof.
  destruct x as [|x0 xs]; [by repeat split; auto; intros e [= <-]|].
  destruct y as [|y0 ys]; [by repeat split; auto; intros e [= <-]|].
  destruct (cmp_version_total (x0 :: xs) (y0 :: ys)) as (a & -> & _); [done..|].
  repeat split; try done. intros [[=]|[=]].
Qed.

(** X2: on non-empty tuples the result is 0 exactly when the tuples agree
    on their common prefix, that is when the shorter one is a prefix of the
    longer one; so on tuples of one length it is 0 exactly for equal
    tuples, and every tuple compares equal to itself. *)
Theorem cmp_version_zero_iff (x y : list Z) :
  x ≠ [] → y ≠ [] →
  (cmp_version x y = Returns (Some 0) ↔
     take (length x `min` length y) x = take (length x `min` length y) y)
  ∧ (length x = length y → (cmp_version x y = Returns (Some 0) ↔ x = y))
  ∧ cmp_version x x = Returns (Some 0).
Proof.
  assert (Hiff : ∀ x y : list Z, x ≠ [] → y ≠ [] →
            (cmp_version x y = Returns (Some 0) ↔
               take (length x `min` length y) x = take (length x `min` length y) y)).
  { clear x y. induction x as [|x0 xs IH]; intros [|y0 ys] Hx Hy; try done.
    rewrite cmp_version_cons. cbn [length Nat.min take].
    destruct (Z.ltb_spec x0 y0) as [Hlt|Hge].
    { split; [discriminate|]. intros [= -> _]. lia. }
    destruct (Z.gtb_spec x0 y0) as [Hgt|Hle].
    { split; [discriminate|]. intros [= -> _]. lia. }
    assert (x0 = y0) as -> by lia.
    destruct xs as [|x1 xs]; [done|]. destruct ys as [|y1 ys].
    { rewrite Nat.min_0_r. done. }
    rewrite (IH (y1 :: ys)) by done. split; [intros ->; done|].
    intros [= -> H1]. cbn [length Nat.min take]. by rewrite H1. }
  intros Hx Hy. split; [by apply Hiff|]. split.
  - intros Hlen. rewrite (Hiff x y Hx Hy), <- Hlen, Nat.min_id.
    rewrite firstn_all. rewrite Hlen at 1. rewrite firstn_all. done.
  - apply Hiff; done.
Qed.

Lemma cmp_version_zero_iff_witness :
  cmp_version [3; 5] [3; 5; 1] = Returns (Some 0).
Proof.
  apply (proj1 (cmp_version_zero_iff [3; 5] [3; 5; 1]
                  ltac:(discriminate) ltac:(discriminate))).
  reflexivity.
Defined.

Lemma cmp_version_less_iff (x y : list Z) :
  cmp_version x y = Returns (Some (-1)) ↔
    ∃ (i : nat) (a b : Z),
      x !! i = Some a ∧ y !! i = Some b ∧ take i x = take i y ∧ a < b.
Proof.
  revert y. induction x as [|x0 xs IH]; intros [|y0 ys].
  1-3: split; [discriminate|]; intros (i & a & b & Hx & Hy & _);
       destruct i; discriminate.
  rewrite cmp_version_cons. split.
  - destruct (Z.ltb_spec x0 y0) as [Hlt|Hge].
    { intros _. exists 0%nat, x0, y0. done. }
    destruct (Z.gtb_spec x0 y0) as [Hgt|Hle]; [discriminate|].
    assert (x0 = y0) as -> by lia.
    destruct xs as [|x1 xs]; [discriminate|].
    destruct ys as [|y1 ys]; [discriminate|].
    intros (i & a & b & Hx & Hy & Htake & Hab)%IH.
    exists (S i), a, b. cbn [take]. rewrite Htake. done.
  - intros (i & a & b & Hx & Hy & Htake & Hab). destruct i as [|i].
    + injection Hx as ->. injection Hy as ->.
      destruct (Z.ltb_spec a b); [done|lia].
    + cbn [take] in Htake. injection Htake as -> Htake.
      rewrite Z.ltb_irrefl.
      assert ((y0 >? y0) = false) as -> by (rewrite Z.gtb_ltb; apply Z.ltb_irrefl).
      cbn in Hx, Hy.
      destruct xs as [|x1 xs]; [done|]. destruct ys as [|y1 ys]; [done|].
      apply IH. exists i, a, b. done.
Qed.

(** X3: [cmp_version] is the lexicographic order on the common prefix: the
    result is -1 exactly when, at the first position where the tuples
    differ, the entry of the first is the smaller one, and 1 exactly when
    it is the larger one; entries beyond the shorter tuple are never
    looked at. *)
Theorem cmp_version_lexicographic (x y : list Z) :
  (cmp_version x y = Returns (Some (-1)) ↔
     ∃ (i : nat) (a b : Z),
       x !! i = Some a ∧ y !! i = Some b ∧ take i x = take i y ∧ a < b)
  ∧ (cmp_version x y = Returns (Some 1) ↔
       ∃ (i : nat) (a b : Z),
         x !! i = Some a ∧ y !! i = Some b ∧ take i x = take i y ∧ b < a).
Proof.
  split; [apply cmp_version_less_iff|].
  split.
  - intros H. apply (cmp_version_flip _ _ 1) in H.
    apply cmp_version_less_iff in H as (i & b & a & Hy & Hx & Htake & Hba).
    exists i, a, b. done.
  - intros (i & a & b & Hx & Hy & Htake & Hba).
    assert (H : cmp_version y x = Returns (Some (-1))).
    { apply cmp_version_less_iff. exists i, b, a. done. }
    apply (cmp_version_flip _ _ (-1)) in H. exact H.
Qed.

(** X4: equality as [cmp_version] sees it is not transitive: a tuple
    compares equal to each of its one-entry extensions, while two
    extensions by different entries compare as those entries do. *)
Theorem cmp_version_equal_not_transitive (x : list Z) (a b : Z) :
  x ≠ [] → a < b →
  cmp_version (x ++ [a]) x = Returns (Some 0)
  ∧ cmp_version x (x ++ [b]) = Returns (Some 0)
  ∧ cmp_version (x ++ [a]) (x ++ [b]) = Returns (Some (-1)).
Proof.
  intros Hx Hab. split; [|split].
  - apply (cmp_version_flip _ _ 0). by apply cmp_version_prefix_l.
  - by apply cmp_version_prefix_l.
  - apply cmp_version_less_iff. exists (length x), a, b.
    rewrite !list_lookup_middle by done.
    rewrite !take_app_length. done.
Qed.

Lemma cmp_version_equal_not_transitive_witness :
  cmp_version [3; 1] [3] = Returns (Some 0)
  ∧ cmp_version [3] [3; 2] = Returns (Some 0)
  ∧ cmp_version [3; 1] [3; 2] = Returns (Some (-1)).
Proof.
  apply (cmp_version_equal_not_transitive [3] 1 2); [discriminate|lia].
Defined.

(** ** Strings *)

Lemma append_cons a (s t : string) : String a s +:+ t = String a (s +:+ t).
Proof. reflexivity. Qed.

Lemma append_nil_l (t : string) : "" +:+ t = t.
Proof. reflexivity. Qed.

Lemma append_nil_r (s : string) : s +:+ "" = s.
Proof. induction s as [|a s IH]; [done|]. by rewrite append_cons, IH. Qed.

Lemma append_assoc (s t u : string) : (s +:+ t) +:+ u = s +:+ (t +:+ u).
Proof. induction s as [|a s IH]; [done|]. by rewrite !append_cons, IH. Qed.

Lemma prefix_append (s t : string) : String.prefix s (s +:+ t) = true.
Proof.
  induction s as [|a s IH]; [by destruct t|].
  rewrite append_cons. cbn. destruct (ascii_dec a a); done.
Qed.

Lemma has_char_append c (s t : string) :
  has_char c (s +:+ t) = has_char c s || has_char c t.
Proof.
  induction s as [|a s IH]; [done|].
  rewrite append_cons. cbn [has_char]. rewrite IH. by rewrite orb_assoc.
Qed.

Lemma prefix_char c a (s : string) :
  String.prefix (String c "") (String a s) = Ascii.eqb a c.
Proof.
  cbn. destruct (ascii_dec c a) as [->|Hne].
  - rewrite Ascii.eqb_refl. by destruct s.
  - symmetry. apply Ascii.eqb_neq. congruence.
Qed.

(** A piece without the separator character is not split. *)
Lemma split_go_no_sep c (s : string) :
  ∀ cur, has_char c s = false →
         PyStr.split_go (String c "") 0 cur s = [cur +:+ s].
Proof.
  induction s as [|a s IH]; intros cur Hs; cbn [PyStr.split_go].
  - by rewrite append_nil_r.
  - cbn [has_char] in Hs. apply orb_false_iff in Hs as [Ha Hs].
    rewrite prefix_char, Ha, IH by done.
    by rewrite append_assoc, append_cons, append_nil_l.
Qed.

Lemma split_go_at_sep c (s rest : string) :
  ∀ cur, has_char c s = false →
         PyStr.split_go (String c "") 0 cur (s +:+ String c rest)
         = (cur +:+ s) :: PyStr.split_go (String c "") 0 "" rest.
Proof.
  induction s as [|a s IH]; intros cur Hs.
  - rewrite append_nil_l. cbn [PyStr.split_go].
    rewrite prefix_char, Ascii.eqb_refl. by rewrite append_nil_r.
  - cbn [has_char] in Hs. apply orb_false_iff in Hs as [Ha Hs].
    rewrite append_cons. cbn [PyStr.split_go].
    rewrite prefix_char, Ha, IH by done.
    by rewrite append_assoc, append_cons, append_nil_l.
Qed.

(** Splitting undoes joining, as long as no piece holds the separator. *)
Lemma split_concat c (l : list string) :
  l ≠ [] → Forall (λ s, has_char c s = false) l →
  PyStr.split (String c "") (String.concat (String c "") l) = l.
Proof.
  unfold PyStr.split. induction l as [|s l IH]; [done|]. intros _ Hl.
  apply Forall_cons in Hl as [Hs Hl]. destruct l as [|t l].
  - cbn [String.concat]. by rewrite split_go_no_sep.
  - change (String.concat (String c "") (s :: t :: l))
      with (s +:+ String c (String.concat (String c "") (t :: l))).
    rewrite split_go_at_sep by done. rewrite IH by done. done.
Qed.

(** The pieces of a split never hold the separator. *)
Lemma split_go_pieces c (s : string) :
  ∀ cur, has_char c cur = false →
         Forall (λ x, has_char c x = false) (PyStr.split_go (String c "") 0 cur s).
Proof.
  induction s as [|a s IH]; intros cur Hcur; cbn [PyStr.split_go].
  - by constructor.
  - rewrite prefix_char. destruct (Ascii.eqb a c) eqn:Ha.
    + constructor; [done|]. by apply IH.
    + apply IH. rewrite has_char_append, Hcur. cbn [has_char]. by rewrite Ha.
Qed.

Lemma rstrip_idempotent (s : string) : PyStr.rstrip (PyStr.rstrip s) = PyStr.rstrip s.
Proof.
  induction s as [|a s IH]; cbn [PyStr.rstrip]; [done|].
  destruct (PyStr.rstrip s) as [|b r] eqn:Hr.
  - destruct (PyStr.isspace a) eqn:Ha; cbn [PyStr.rstrip]; [done|]. by rewrite Ha.
  - change (PyStr.rstrip (String a (String b r)))
      with (match PyStr.rstrip (String b r) with
            | EmptyString => if PyStr.isspace a then EmptyString else String a EmptyString
            | r' => String a r'
            end).
    by rewrite IH.
Qed.

Lemma rstrip_no_char c (s : string) :
  has_char c s = false → has_char c (PyStr.rstrip s) = false.
Proof.
  induction s as [|a s IH]; cbn [PyStr.rstrip has_char]; [done|].
  intros [Ha Hs]%orb_false_iff. specialize (IH Hs).
  destruct (PyStr.rstrip s) as [|b r].
  - destruct (PyStr.isspace a); cbn; [done|]. by rewrite Ha.
  - cbn [has_char] in *. by rewrite Ha.
Qed.

(** ** [_format_version] *)

Lemma string_of_uint_no_dot (d : Decimal.uint) :
  has_char "." (NilEmpty.string_of_uint d) = false.
Proof. induction d; cbn; done. Qed.

Lemma py_str_int_no_dot (z : Z) : has_char "." (py_str_int z) = false.
Proof.
  unfold py_str_int, NilZero.string_of_int, NilZero.string_of_uint.
  destruct (Z.to_int z) as [d|d]; destruct d; cbn;
    try done; apply string_of_uint_no_dot.
Qed.

Lemma py_str_int_inj (a b : Z) : py_str_int a = py_str_int b → a = b.
Proof.
  unfold py_str_int. intros H.
  assert (Hnonnil : ∀ z, Z.to_int z ≠ Decimal.Pos Decimal.Nil
                         ∧ Z.to_int z ≠ Decimal.Neg Decimal.Nil).
  { intros [|p|p]; cbn; split; try discriminate;
      intros [= Hp]; by apply Unsigned.to_uint_nonnil in Hp. }
  assert (Hint : Some (Z.to_int a) = Some (Z.to_int b)).
  { rewrite <- (NilZero.isi (Z.to_int a)), <- (NilZero.isi (Z.to_int b));
      try apply Hnonnil. by rewrite H. }
  injection Hint as Hint.
  rewrite <- (DecimalZ.of_to a), <- (DecimalZ.of_to b). by rewrite Hint.
Qed.

Lemma py_str_int_nonempty (z : Z) : py_str_int z ≠ "".
Proof.
  unfold py_str_int, NilZero.string_of_int, NilZero.string_of_uint.
  destruct z as [|p|p]; cbn; try done.
  - pose proof (Unsigned.to_uint_nonnil p). destruct (Pos.to_uint p); done.
Qed.

(** X5: the components can be read back from the formatted version: for a
    non-empty tuple, splitting the result at "." gives the decimal
    renderings of the entries, in order; the empty tuple gives the empty
    string; and different tuples never format to the same string. *)
Theorem format_version_round_trip (x y : list Z) :
  PyStr.split "." (_format_version x)
    = match x with [] => [""] | _ => py_str_int <$> x end
  ∧ _format_version [] = ""
  ∧ (_format_version x = _format_version y → x = y).
Proof.
  assert (Hsplit : ∀ x : list Z, x ≠ [] →
            PyStr.split "." (_format_version x) = py_str_int <$> x).
  { intros x' Hx'. unfold _format_version. apply (split_concat ".").
    - by destruct x'.
    - apply Forall_fmap, Forall_forall. intros z _. apply py_str_int_no_dot. }
  assert (Hempty : ∀ x : list Z, _format_version x = "" → x = []).
  { intros [|a [|b l]]; unfold _format_version; cbn [fmap list_fmap String.concat];
      [done| |].
    - intros H. by apply py_str_int_nonempty in H.
    - intros H. pose proof (py_str_int_nonempty a) as Ha.
      destruct (py_str_int a); [done|discriminate]. }
  split; [|split; [done|]].
  - destruct x as [|a l]; [done|]. by apply Hsplit.
  - intros Heq. destruct x as [|a l], y as [|b m]; [done| | |].
    + symmetry. apply Hempty. by rewrite <- Heq.
    + by apply Hempty.
    + assert (Hmap : py_str_int <$> a :: l = py_str_int <$> b :: m).
      { rewrite <- !Hsplit by done. by rewrite Heq. }
      revert Hmap. generalize (a :: l) (b :: m). clear.
      induction l as [|a l IH]; intros [|b m]; cbn; try done.
      intros [= Hab Hlm]. f_equal; [by apply py_str_int_inj|by apply IH].
Qed.

(** ** The value of [_get_r_home] *)

Lemma rstrip_cons_empty a (s : string) :
  PyStr.rstrip (String a s) = "" ↔ PyStr.isspace a = true ∧ PyStr.rstrip s = "".
Proof.
  cbn [PyStr.rstrip]. destruct (PyStr.rstrip s) as [|b r].
  - destruct (PyStr.isspace a); split; try done. intros [[=] _].
  - split; [done|]. intros [_ [=]].
Qed.

Lemma rstrip_append_empty (s t : string) :
  PyStr.rstrip s = "" → PyStr.rstrip t = "" → PyStr.rstrip (s +:+ t) = "".
Proof.
  induction s as [|a s IH]; [done|].
  rewrite append_cons, !rstrip_cons_empty. intros [Ha Hs] Ht. auto.
Qed.

Lemma split_go_blank (s : string) :
  ∀ cur, PyStr.rstrip cur = "" → PyStr.rstrip s = "" →
         Forall (λ x, PyStr.rstrip x = "") (PyStr.split_go os_linesep 0 cur s).
Proof.
  induction s as [|a s IH]; intros cur Hcur Hs; cbn [PyStr.split_go].
  - by constructor.
  - apply rstrip_cons_empty in Hs as [Ha Hs].
    destruct (String.prefix os_linesep (String a s)).
    + constructor; [done|]. by apply IH.
    + apply IH; [|done]. apply rstrip_append_empty; [done|].
      by apply rstrip_cons_empty.
Qed.

Lemma blank_not_warning (s : string) :
  PyStr.rstrip s = "" → PyStr.startswith s "WARNING" = false.
Proof.
  destruct s as [|a s]; [done|]. intros [Ha _]%rstrip_cons_empty.
  unfold PyStr.startswith.
  change (String.prefix "WARNING" (String a s))
    with (if ascii_dec "W" a then String.prefix "ARNING" s else false).
  destruct (ascii_dec "W" a) as [<-|]; [vm_compute in Ha; discriminate|done].
Qed.

(** X6: a value returned by [_get_r_home] has no trailing whitespace and
    holds no line separator: stripping it or splitting it into lines gives
    it back. *)
Theorem get_r_home_value_is_one_clean_line w r_bin σ p :
  (_get_r_home w r_bin σ).1 = Ret p →
  PyStr.rstrip p = p ∧ PyStr.split os_linesep p = [p].
Proof.
  rewrite get_r_home_returned. unfold get_r_home_result, r_home_of_output.
  destruct (subprocess_check_output w [r_bin; "RHOME"]) as [out|e]; [|done].
  pose proof (split_go_pieces (ascii_of_nat 10) out "" eq_refl) as Hpieces.
  change (PyStr.split_go (String (ascii_of_nat 10) "") 0 "" out)
    with (PyStr.split os_linesep out) in Hpieces.
  assert (Hclean : ∀ x, has_char (ascii_of_nat 10) x = false →
            PyStr.rstrip (PyStr.rstrip x) = PyStr.rstrip x
            ∧ PyStr.split os_linesep (PyStr.rstrip x) = [PyStr.rstrip x]).
  { intros x Hx. split; [apply rstrip_idempotent|].
    unfold PyStr.split, os_linesep, PyStr.LF.
    rewrite split_go_no_sep by (by apply rstrip_no_char). done. }
  destruct (PyStr.split os_linesep out) as [|first others]; [done|].
  apply Forall_cons in Hpieces as [Hfirst Hothers].
  destruct (PyStr.startswith first "WARNING").
  - destruct others as [|second others]; [done|].
    apply Forall_cons in Hothers as [Hsecond _].
    intros [= <-]. by apply Hclean.
  - intros [= <-]. by apply Hclean.
Qed.

Lemma get_r_home_value_is_one_clean_line_witness :
  PyStr.rstrip "WARNING: second" = "WARNING: second"
  ∧ PyStr.split os_linesep "WARNING: second" = ["WARNING: second"].
Proof.
  apply (get_r_home_value_is_one_clean_line host_two_warnings "R" start).
  vm_compute. reflexivity.
Defined.

(** X7: output that is blank (empty, or whitespace only) is not an error:
    [_get_r_home] returns the empty string as the R home. *)
Theorem get_r_home_blank_output w r_bin σ out :
  subprocess_check_output w [r_bin; "RHOME"] = Returns out →
  PyStr.rstrip out = "" →
  (_get_r_home w r_bin σ).1 = Ret "".
Proof.
  intros Hout Hblank. rewrite get_r_home_returned.
  unfold get_r_home_result, r_home_of_output. rewrite Hout.
  pose proof (split_go_blank out "" eq_refl Hblank) as Hpieces.
  change (PyStr.split_go os_linesep 0 "" out)
    with (PyStr.split os_linesep out) in Hpieces.
  destruct (PyStr.split os_linesep out) as [|first others] eqn:Hsplit.
  { exfalso. revert Hsplit. apply split_go_nonempty. }
  apply Forall_cons in Hpieces as [Hfirst _].
  rewrite (blank_not_warning first Hfirst), Hfirst. done.
Qed.

Lemma get_r_home_blank_output_witness :
  (_get_r_home (host (3, 8) (Returns (" " +:+ PyStr.LF)) None None needs_R_include
                  (Returns ()) (Returns ABI)) "R" start).1 = Ret "".
Proof.
  apply (get_r_home_blank_output _ "R" start (" " +:+ PyStr.LF)); reflexivity.
Defined.

(** ** The probe, call by call *)

Ltac probe_raises_full :=
  eexists; split; [reflexivity|]; cbn; split;
  [rewrite <- ?app_assoc; reflexivity|intros ? [=]].

Ltac probe_returns_full :=
  rewrite run_mret; cbv beta iota;
  rewrite run_bind, run_rmtree by (cbn; set_solver);
  eexists; split; [reflexivity|]; cbn; split;
  [rewrite <- ?app_assoc; reflexivity
  |intros ? _; f_equal;
   rewrite ?(left_id_L ∅ (∪)), <- ?(assoc_L (∪)); reflexivity].

Lemma probe_run_full w libs incl libdirs σ d rest :
  next_tmp_dir w σ = Some (d, rest) →
  let libs' := default (st_default_libraries σ) libs in
  ∃ σ', get_c_extension_status w libs incl libdirs σ
        = (probe_result w d libs' incl libdirs, σ')
      ∧ st_log σ' = st_log σ ++ probe_events w d libs' incl libdirs
      ∧ (∀ s, probe_result w d libs' incl libdirs = Ret s →
           st_fs σ' = filter (λ p, under d p = false)
                        (probe_created w d libs' incl libdirs
                         ∪ ({[src_file_of d]} ∪ ({[d]} ∪ st_fs σ)))).
Proof.
  unfold next_tmp_dir. intros Hpick. cbv zeta.
  unfold get_c_extension_status, probe_result, setup_failure, toolchain_outcome,
    probe_events, probe_created, cleanup_events.
  rewrite run_emit_bind, run_bind. unfold libraries_or_default at 1.
  cbn [add_log st_default_libraries].
  unfold tempfile_mkdtemp. rewrite run_bind_assoc, run_emit_bind.
  rewrite run_bind. unfold mkdir_fresh at 1.
  cbn [add_log st_fs st_rng st_default_libraries st_log].
  rewrite Hpick.
  fold (bin_file_of d). fold (src_file_of d).
  rewrite run_bind, run_open_write.
  destruct (fs_open_write w (src_file_of d) c_code) as [e|].
  { probe_raises_full. }
  unfold new_customized_compiler. rewrite !run_bind_assoc, run_bind, run_ext_unit.
  destruct (distutils_new_compiler w) as [e|].
  { probe_raises_full. }
  rewrite run_bind, run_ext_unit.
  destruct (distutils_customize_compiler w) as [e|].
  { probe_raises_full. }
  rewrite run_bind, run_try_except, run_bind, run_compile.
  destruct (cc_compile w [src_file_of d] d incl) as [objs|e].
  - rewrite run_link.
    destruct (cc_link_executable _ _ _ _ _) as [[]|e].
    + probe_returns_full.
    + rewrite find_handler_probe.
      destruct (classify e) as [s|]; [probe_returns_full|probe_raises_full].
  - rewrite find_handler_probe.
    destruct (classify e) as [s|]; [probe_returns_full|probe_raises_full].
Qed.

Lemma join_relative (d x : string) :
  PyStr.startswith x "/" = false → path_join d x = path_join d "" +:+ x.
Proof.
  intros Hx. unfold path_join. rewrite Hx.
  change (PyStr.startswith "" "/") with false. cbv iota.
  destruct (String.eqb d "" || PyStr.endswith d "/").
  - by rewrite append_nil_r.
  - by rewrite append_nil_r, append_assoc.
Qed.

Lemma under_join (d x y : string) :
  PyStr.startswith x "/" = false → under d (path_join d x +:+ y) = true.
Proof.
  intros Hx. unfold under. rewrite (join_relative d x Hx), append_assoc.
  unfold PyStr.startswith. rewrite prefix_append. apply orb_true_r.
Qed.

Lemma under_self (d : string) : under d d = true.
Proof. unfold under. by rewrite String.eqb_refl. Qed.

(** X8: a call that returns leaves the file tree exactly as it found it,
    provided nothing existed below the fresh temporary directory and the
    compiler names its object files relative to the output directory. *)
Theorem probe_restores_file_tree w libs incl libdirs σ d rest s σ' :
  next_tmp_dir w σ = Some (d, rest) →
  get_c_extension_status w libs incl libdirs σ = (Ret s, σ') →
  (∀ p, p ∈ st_fs σ → under d p = false) →
  (∀ objs, cc_compile w [src_file_of d] d incl = Returns objs →
           Forall (λ o, PyStr.startswith o "/" = false) objs) →
  st_fs σ' = st_fs σ.
Proof.
  intros Hd Hrun Hfresh Hrel.
  destruct (probe_run_full w libs incl libdirs σ d rest Hd) as (σ1 & Hrun1 & _ & Hfs).
  rewrite Hrun in Hrun1. injection Hrun1 as Hres <-.
  rewrite (Hfs s) by done. clear Hfs.
  apply set_eq. intros p. rewrite elem_of_filter. split.
  - intros [Hp Hin]. rewrite !elem_of_union, !elem_of_singleton in Hin.
    destruct Hin as [Hin|[->|[->|Hin]]]; [|..|done].
    + exfalso. unfold probe_created in Hin.
      destruct (cc_compile w [src_file_of d] d incl) as [objs|e] eqn:Hcc;
        [|set_solver].
      assert (Hobjs : p ∈ (list_to_set (path_join d <$> objs) : gset string) →
                under d p = true).
      { rewrite elem_of_list_to_set, list_elem_of_fmap. intros (o & -> & Ho).
        specialize (Hrel objs eq_refl). rewrite Forall_forall in Hrel.
        rewrite <- (append_nil_r (path_join d o)). apply under_join. by apply Hrel. }
      destruct (cc_link_executable _ _ _ _ _) as [[]|e].
      * apply elem_of_union in Hin as [->%elem_of_singleton|Hin].
        -- unfold bin_file_of in Hp.
           rewrite <- (append_nil_r (path_join d "test_pw_r")), under_join in Hp; done.
        -- rewrite Hobjs in Hp; done.
      * rewrite Hobjs in Hp; done.
    + exfalso. unfold src_file_of, bin_file_of in Hp. rewrite under_join in Hp; done.
    + exfalso. by rewrite under_self in Hp.
  - intros Hin. split; [by apply Hfresh|]. set_solver.
Qed.

Lemma probe_restores_file_tree_witness :
  st_fs (get_c_extension_status host_with_R None (Some [R_include_dir]) None
           (initial_state {["/tmp"; "/tmp/other"]} ["a"])).2
  = st_fs (initial_state {["/tmp"; "/tmp/other"]} ["a"]).
Proof.
  apply (probe_restores_file_tree host_with_R None (Some [R_include_dir]) None
           (initial_state {["/tmp"; "/tmp/other"]} ["a"]) "/tmp/tmp_pw_r_a" [] OK
           (get_c_extension_status host_with_R None (Some [R_include_dir]) None
              (initial_state {["/tmp"; "/tmp/other"]} ["a"])).2).
  - reflexivity.
  - vm_compute. reflexivity.
  - intros p [->%elem_of_singleton| ->%elem_of_singleton]%elem_of_union; reflexivity.
  - intros objs [= <-]. repeat constructor.
Defined.

Ltac decide_mem :=
  match goal with
  | |- _ ∈ _ => refine (bool_decide_unpack _ _); vm_compute; exact I
  | |- NoDup _ => refine (bool_decide_unpack _ _); vm_compute; exact I
  | H : _ ∈ _ |- _ =>
      exfalso; revert H; refine (bool_decide_unpack (_ ∉ _) _); vm_compute; exact I
  end.

(** X9: the order of business of one call: the compiler is run exactly
    when the source was written and the compiler object made; the linker
    exactly when, besides, the compile returned; [rmtree] exactly when the
    call returns a status; and no step is made twice. *)
Theorem probe_call_protocol w libs incl libdirs σ d rest :
  next_tmp_dir w σ = Some (d, rest) →
  let r := get_c_extension_status w libs incl libdirs σ in
  ∃ evs, st_log r.2 = st_log σ ++ evs
    ∧ (EvCall "compiler.compile" ∈ evs ↔ setup_failure w d = None)
    ∧ (EvCall "compiler.link_executable" ∈ evs ↔
         setup_failure w d = None
         ∧ ∃ objs, cc_compile w [src_file_of d] d incl = Returns objs)
    ∧ (EvCall "shutil.rmtree" ∈ evs ↔ ∃ s, r.1 = Ret s)
    ∧ NoDup evs.
Proof.
  intros Hd r. subst r.
  destruct (probe_run_full w libs incl libdirs σ d rest Hd) as (σ' & -> & Hlog & _).
  cbn [fst snd]. eexists. split; [exact Hlog|].
  unfold probe_events, probe_result, setup_failure, toolchain_outcome, cleanup_events.
  destruct (fs_open_write w (src_file_of d) c_code) as [e0|];
    [|destruct (distutils_new_compiler w) as [e0|];
      [|destruct (distutils_customize_compiler w) as [e0|];
        [|destruct (cc_compile w [src_file_of d] d incl) as [objs|e0];
          [destruct (cc_link_executable _ _ _ _ _) as [[]|e0];
             [|destruct (classify e0)]
          |destruct (classify e0)]]]].
  all: cbn [app].
  all: repeat match goal with
              | |- _ ∧ _ => split
              | |- _ ↔ _ => split
              end.
  all: intros; try decide_mem; try done; eauto.
  all: repeat match goal with
              | H : _ ∧ _ |- _ => destruct H
              | H : ∃ _, _ |- _ => destruct H
              end; done.
Qed.

Lemma probe_call_protocol_witness :
  ∃ evs, st_log (get_c_extension_status host_with_R (Some ["R"]) None None start).2
         = st_log start ++ evs
       ∧ (EvCall "compiler.link_executable" ∈ evs ↔
            setup_failure host_with_R "/tmp/tmp_pw_r_a" = None
            ∧ ∃ objs, cc_compile host_with_R [src_file_of "/tmp/tmp_pw_r_a"]
                        "/tmp/tmp_pw_r_a" None = Returns objs).
Proof.
  destruct (probe_call_protocol host_with_R (Some ["R"]) None None start
              "/tmp/tmp_pw_r_a" ["b"] eq_refl) as (evs & Hlog & _ & Hlink & _).
  exists evs. split; [exact Hlog|exact Hlink].
Defined.

(** ** [get_r_c_extension_status] *)

Lemma r_c_run w σ :
  match r_c_queries w with
  | Returns c =>
      ∃ σq, get_r_c_extension_status w σ
            = get_c_extension_status w (Some ["R"]) (Some (include_dirs c))
                (Some (library_dirs c)) σq
          ∧ st_fs σq = st_fs σ ∧ st_rng σq = st_rng σ
          ∧ st_default_libraries σq = st_default_libraries σ
          ∧ ∃ evs, st_log σq = st_log σ ++ evs ∧ Forall (λ ev, ev ∈ r_c_query_events) evs
  | Raises e =>
      ∃ σ', get_r_c_extension_status w σ = (Raise e, σ')
          ∧ st_fs σ' = st_fs σ ∧ st_rng σ' = st_rng σ
          ∧ ∃ evs, st_log σ' = st_log σ ++ evs ∧ Forall (λ ev, ev ∈ r_c_query_events) evs
  end.
Proof.
  unfold r_c_queries, get_r_c_extension_status.
  rewrite run_emit_bind, run_bind, run_ext.
  destruct (situation_get_r_home w) as [r_home|e].
  2:{ eexists; split; [reflexivity|]. cbn. repeat split.
      eexists; split; [by rewrite <- !app_assoc|]. repeat constructor; decide_mem. }
  rewrite run_bind, run_ext.
  destruct (situation_get_r_flags w r_home "--ldflags") as [ldflags|e].
  2:{ eexists; split; [reflexivity|]. cbn. repeat split.
      eexists; split; [by rewrite <- !app_assoc|]. repeat constructor; decide_mem. }
  rewrite run_bind, run_ext.
  destruct (situation_add_lib w CExtensionOptions_new ldflags) as [c_ext|e].
  2:{ eexists; split; [reflexivity|]. cbn. repeat split.
      eexists; split; [by rewrite <- !app_assoc|]. repeat constructor; decide_mem. }
  rewrite run_bind, run_ext.
  destruct (situation_get_r_flags w r_home "--cppflags") as [cppflags|e].
  2:{ eexists; split; [reflexivity|]. cbn. repeat split.
      eexists; split; [by rewrite <- !app_assoc|]. repeat constructor; decide_mem. }
  rewrite run_bind, run_ext.
  destruct (situation_add_include w c_ext cppflags) as [c|e].
  2:{ eexists; split; [reflexivity|]. cbn. repeat split.
      eexists; split; [by rewrite <- !app_assoc|]. repeat constructor; decide_mem. }
  eexists; split; [reflexivity|]. cbn. repeat split.
  eexists; split; [by rewrite <- !app_assoc|]. repeat constructor; decide_mem.
Qed.

(** The status does not depend on what has been logged. *)
Lemma probe_result_of_state w libs incl libdirs σ σq :
  st_fs σq = st_fs σ → st_rng σq = st_rng σ →
  st_default_libraries σq = st_default_libraries σ →
  (get_c_extension_status w libs incl libdirs σq).1
  = (get_c_extension_status w libs incl libdirs σ).1.
Proof.
  intros Hfs Hrng Hdflt.
  destruct (next_tmp_dir w σ) as [[d rest]|] eqn:Hd.
  - assert (Hdq : next_tmp_dir w σq = Some (d, rest)).
    { unfold next_tmp_dir in *. by rewrite Hfs, Hrng. }
    destruct (probe_run w libs incl libdirs σ d rest Hd) as (σ1 & -> & _).
    destruct (probe_run w libs incl libdirs σq d rest Hdq) as (σ2 & -> & _).
    cbn [fst]. by rewrite Hdflt.
  - assert (Hdq : next_tmp_dir w σq = None).
    { unfold next_tmp_dir in *. by rewrite Hfs, Hrng. }
    destruct (probe_run_no_name w libs incl libdirs σ Hd) as (σ1 & -> & _).
    destruct (probe_run_no_name w libs incl libdirs σq Hdq) as (σ2 & -> & _).
    done.
Qed.

(** X11: when one of the queries to [rpy2.situation] raises, the exception
    leaves [get_r_c_extension_status] as it is, without a status; nothing
    but the queries has been called, so no temporary directory was made and
    the toolchain was not run. *)
Theorem r_c_probe_query_failure w σ e :
  r_c_queries w = Raises e →
  let r := get_r_c_extension_status w σ in
  r.1 = Raise e
  ∧ st_fs r.2 = st_fs σ
  ∧ st_rng r.2 = st_rng σ
  ∧ ∃ evs, st_log r.2 = st_log σ ++ evs
           ∧ Forall (λ ev, ev ∈ r_c_query_events) evs.
Proof.
  intros He r. subst r. pose proof (r_c_run w σ) as Hrun. rewrite He in Hrun.
  destruct Hrun as (σ' & -> & Hfs & Hrng & Hlog). done.
Qed.

(** X12: when the queries succeed, the status is the one of the probe
    called with [libraries=['R']] and with the include and library
    directories the queries collected; the libraries they collected are not
    passed on. *)
Theorem r_c_probe_is_probe_with_R w σ c :
  r_c_queries w = Returns c →
  (get_r_c_extension_status w σ).1
  = (get_c_extension_status w (Some ["R"]) (Some (include_dirs c))
       (Some (library_dirs c)) σ).1.
Proof.
  intros Hc. pose proof (r_c_run w σ) as Hrun. rewrite Hc in Hrun.
  destruct Hrun as (σq & -> & Hfs & Hrng & Hdflt & _).
  by apply probe_result_of_state.
Qed.

Lemma r_c_probe_query_failure_witness :
  (get_r_c_extension_status host_R_query_fails start).1 = Raise OSError
  ∧ st_fs (get_r_c_extension_status host_R_query_fails start).2 = st_fs start.
Proof.
  destruct (r_c_probe_query_failure host_R_query_fails start OSError eq_refl)
    as (Hres & Hfs & _).
  split; [exact Hres|exact Hfs].
Defined.

Lemma r_c_probe_is_probe_with_R_witness :
  (get_r_c_extension_status host_with_R start).1
  = (get_c_extension_status host_with_R (Some ["R"]) (Some [R_include_dir])
       (Some []) start).1.
Proof.
  apply (r_c_probe_is_probe_with_R host_with_R start (CExtOpts [] [R_include_dir] [])).
  reflexivity.
Defined.

(** ** The module body, outcome by outcome *)

Lemma script_after_probe w σ s σ1 :
  python_too_old (sys_version_info w) = false →
  get_r_c_extension_status w σ = (Ret s, σ1) →
  ∃ σ2, st_fs σ2 = st_fs σ1
    ∧ setup_script w σ
      = (match situation_get_cffi_mode w with
         | Raises e => Raise e
         | Returns API =>
             if bool_decide (s = OK) then Ret [ffibuilder_api] else Exit 1
         | Returns BOTH =>
             if bool_decide (s = OK) then Ret [ffibuilder_abi; ffibuilder_api]
             else Exit 1
         | Returns _ => Ret [ffibuilder_abi]
         end, σ2).
Proof.
  intros Hver Hprobe. unfold setup_script. rewrite Hver, run_bind, Hprobe.
  rewrite run_bind, run_ext.
  destruct (situation_get_cffi_mode w) as [m|e]; [|eexists; split; [|reflexivity]; reflexivity].
  destruct m; unfold require_ok; try (eexists; split; [|reflexivity]; reflexivity).
  - destruct (decide (s = OK)) as [->|Hs].
    + eexists; split; [|reflexivity]; reflexivity.
    + rewrite bool_decide_eq_true_2, (bool_decide_eq_false_2 (s = OK)) by done.
      unfold print. rewrite run_bind_assoc, run_emit_bind.
      eexists; split; [|reflexivity]; reflexivity.
  - destruct (decide (s = OK)) as [->|Hs].
    + eexists; split; [|reflexivity]; reflexivity.
    + rewrite bool_decide_eq_true_2, (bool_decide_eq_false_2 (s = OK)) by done.
      unfold print. rewrite run_bind_assoc, run_emit_bind.
      eexists; split; [|reflexivity]; reflexivity.
Qed.

Lemma script_probe_raises w σ e σ1 :
  python_too_old (sys_version_info w) = false →
  get_r_c_extension_status w σ = (Raise e, σ1) →
  setup_script w σ = (Raise e, σ1).
Proof.
  intros Hver Hprobe. unfold setup_script. by rewrite Hver, run_bind, Hprobe.
Qed.

Lemma script_too_old w σ :
  python_too_old (sys_version_info w) = true →
  ∃ msg, setup_script w σ = (Exit 1, add_log (EvPrint msg) σ).
Proof. intros Hver. unfold setup_script. rewrite Hver. by eexists. Qed.

(** X13: when the script gets as far as choosing [cffi_modules], the list
    is one of three, and it holds the API builder only if the probe had
    returned [OK]. *)
Theorem api_builder_only_after_ok_probe w σ mods :
  (setup_script w σ).1 = Ret mods →
  (mods = [ffibuilder_abi] ∨ mods = [ffibuilder_api]
   ∨ mods = [ffibuilder_abi; ffibuilder_api])
  ∧ (ffibuilder_api ∈ mods → ∃ σ1, get_r_c_extension_status w σ = (Ret OK, σ1)).
Proof.
  destruct (python_too_old (sys_version_info w)) eqn:Hver.
  { destruct (script_too_old w σ Hver) as (msg & ->). discriminate. }
  destruct (get_r_c_extension_status w σ) as [[s|e|c] σ1] eqn:Hprobe.
  - destruct (script_after_probe w σ s σ1 Hver Hprobe) as (σ2 & _ & ->).
    cbn [fst]. destruct (situation_get_cffi_mode w) as [[]|e]; try discriminate.
    + intros [= <-]. split; [auto|]. intros [=]%list_elem_of_singleton.
    + case_bool_decide as Hs; [|discriminate]. subst s.
      intros [= <-]. split; eauto.
    + case_bool_decide as Hs; [|discriminate]. subst s.
      intros [= <-]. split; eauto.
    + intros [= <-]. split; [auto|]. intros [=]%list_elem_of_singleton.
  - rewrite (script_probe_raises w σ e σ1 Hver Hprobe). discriminate.
  - exfalso. apply (never_exits_r_c_probe w σ c). by rewrite Hprobe.
Qed.

Lemma api_builder_only_after_ok_probe_witness :
  ∃ σ1, get_r_c_extension_status host_with_R start = (Ret OK, σ1).
Proof.
  apply (proj2 (api_builder_only_after_ok_probe host_with_R start [ffibuilder_api]
                  ltac:(vm_compute; reflexivity))).
  decide_mem.
Defined.

(** X14: once the probe has returned [OK] the script never exits on
    account of the mode: every mode the query returns is honoured, API and
    BOTH included. *)
Theorem ok_probe_lets_every_mode_through w σ σ1 m :
  python_too_old (sys_version_info w) = false →
  get_r_c_extension_status w σ = (Ret OK, σ1) →
  situation_get_cffi_mode w = Returns m →
  (setup_script w σ).1
  = Ret (match m with
         | API => [ffibuilder_api]
         | BOTH => [ffibuilder_abi; ffibuilder_api]
         | _ => [ffibuilder_abi]
         end).
Proof.
  intros Hver Hprobe Hm.
  destruct (script_after_probe w σ OK σ1 Hver Hprobe) as (σ2 & _ & ->).
  rewrite Hm. by destruct m.
Qed.

Lemma ok_probe_lets_every_mode_through_witness :
  (setup_script host_with_R start).1 = Ret [ffibuilder_api].
Proof.
  apply (ok_probe_lets_every_mode_through host_with_R start
           (get_r_c_extension_status host_with_R start).2 API).
  - reflexivity.
  - vm_compute. reflexivity.
  - reflexivity.
Defined.

(** X15: whenever the script ends by choosing [cffi_modules] or by
    [sys.exit] after the version guard, the temporary directory of the
    probe is already gone; so it is when API mode is refused. *)
Theorem script_cleans_up_before_it_ends w σ d rest :
  python_too_old (sys_version_info w) = false →
  next_tmp_dir w σ = Some (d, rest) →
  let r := setup_script w σ in
  ((∃ mods, r.1 = Ret mods) ∨ (∃ c, r.1 = Exit c)) →
  ∀ p, under d p = true → p ∉ st_fs r.2.
Proof.
  intros Hver Hd r Hend. subst r.
  destruct (get_r_c_extension_status w σ) as [[s|e|c] σ1] eqn:Hprobe.
  - destruct (script_after_probe w σ s σ1 Hver Hprobe) as (σ2 & Hfs & ->).
    cbn [snd]. rewrite Hfs. clear Hend.
    pose proof (r_c_run w σ) as Hrun. rewrite Hprobe in Hrun.
    destruct (r_c_queries w) as [c|e].
    + destruct Hrun as (σq & Hq & Hfsq & Hrngq & _).
      assert (Hdq : next_tmp_dir w σq = Some (d, rest)).
      { unfold next_tmp_dir in *. by rewrite Hfsq, Hrngq. }
      destruct (probe_run w (Some ["R"]) (Some (include_dirs c))
                  (Some (library_dirs c)) σq d rest Hdq)
        as (σ' & Hrun' & _ & _ & _ & Hgone).
      change (default _ (Some ["R"])) with ["R"] in Hrun', Hgone.
      rewrite <- Hq in Hrun'. injection Hrun' as Hres <-.
      rewrite <- Hres in Hgone. exact Hgone.
    + destruct Hrun as (σ' & [=] & _).
  - rewrite (script_probe_raises w σ e σ1 Hver Hprobe) in Hend.
    destruct Hend as [[mods [=]]|[c [=]]].
  - exfalso. apply (never_exits_r_c_probe w σ c). by rewrite Hprobe.
Qed.

Lemma script_cleans_up_before_it_ends_witness :
  (setup_script host_api_refused start).1 = Exit 1
  ∧ ("/tmp/tmp_pw_r_a" ∉ st_fs (setup_script host_api_refused start).2).
Proof.
  split; [vm_compute; reflexivity|].
  apply (script_cleans_up_before_it_ends host_api_refused start "/tmp/tmp_pw_r_a"
           ["b"] eq_refl eq_refl).
  - right. exists 1. vm_compute. reflexivity.
  - reflexivity.
Defined.

(** X16: the version guard is the comparison with (3, 5) that
    [cmp_version] makes: the script stops there exactly when the
    interpreter's (major, minor) compares below (3, 5); it then prints one
    line and exits with code 1, having called nothing and touched
    nothing. *)
Theorem version_guard_is_cmp_version w σ :
  (python_too_old (sys_version_info w) = true ↔
     cmp_version [(sys_version_info w).1; (sys_version_info w).2] [3; 5]
     = Returns (Some (-1)))
  ∧ (python_too_old (sys_version_info w) = true →
     ∃ msg, setup_script w σ = (Exit 1, add_log (EvPrint msg) σ)).
Proof.
  split; [|apply script_too_old].
  destruct (sys_version_info w) as [major minor]. unfold python_too_old.
  cbn [fst snd]. rewrite cmp_version_cons, cmp_version_cons.
  destruct (Z.ltb_spec major 3), (Z.gtb_spec major 3), (Z.eqb_spec major 3),
    (Z.ltb_spec minor 5), (Z.gtb_spec minor 5); cbn; split; try done; lia.
Qed.
